(** * Matching HAL publications against local ones

    A shallow embedding of the module that exports
    [findCorrespondingPublication], and the properties of its matching
    engine: the exact-identifier gate, the three similarity sub-measures,
    their fusion into a confidence, and the forward pass that keeps the
    best candidate. *)

From Stdlib Require Import Reals Lra Lia.
From Stdlib Require Import List String Ascii Bool ZArith Arith.
From Stdlib Require Import Permutation.
Import ListNotations.

Local Open Scope string_scope.
Local Open Scope list_scope.

(** ** JavaScript numbers

    The engine computes with JavaScript numbers.  A finite number is
    modelled by the real it denotes: the rounding of a result to the nearest
    double is left out, so that a value is the code's up to that rounding,
    two values that differ by such a rounding only may compare differently
    in the code, and nothing below rests on that.  What the engine can
    observe beyond a rounding is kept: [NaN], which it produces ([0 / 0],
    arithmetic on an invalid date) and tests for, and the underflow of
    [Math.exp] to 0.  Infinities are not represented, and [num_div] has
    no value to give for [x / 0] with [x] other than 0: every divisor in
    the module is either a non-zero constant or a length, and a length is
    zero only together with its numerator (an edit distance is at most the
    greater length, a sum of no measure is 0), so that a division by zero
    occurs as [0 / 0] alone. *)

Inductive number : Type :=
| NaN
| Num (r : R).

Definition isNaN (x : number) : bool :=
  match x with NaN => true | Num _ => false end.

Definition num_add (x y : number) : number :=
  match x, y with
  | Num a, Num b => Num (a + b)
  | _, _ => NaN
  end.

Definition num_sub (x y : number) : number :=
  match x, y with
  | Num a, Num b => Num (a - b)
  | _, _ => NaN
  end.

Definition num_neg (x : number) : number :=
  match x with
  | Num a => Num (- a)
  | NaN => NaN
  end.

(** [x / y]; [0 / 0] is [NaN]. *)
Definition num_div (x y : number) : number :=
  match x, y with
  | Num a, Num b => if Req_dec_T b 0 then NaN else Num (a / b)
  | _, _ => NaN
  end.

(** [Math.abs], [Math.exp] and [Math.max] on two arguments. *)
Definition Math_abs (x : number) : number :=
  match x with
  | Num a => Num (Rabs a)
  | NaN => NaN
  end.

(** [Math.exp] underflows: a double has no positive value under [2^-1074],
    and a result under [2^-1075], half of it, is 0.  [exp a] is under
    [2^-1075] when [a] is under [-1075 * ln 2], about -745.13.  (At the
    other end a result over the greatest double is an infinity; the engine
    passes [Math.exp] no positive argument.) *)
Definition exp_underflow : R := (-1075 * ln 2)%R.

(** The least argument whose exponential is a normal double, one of full
    precision: [2^-1022] is the least of those, so about -708.4. *)
Definition exp_normal : R := (-1022 * ln 2)%R.

Definition Math_exp (x : number) : number :=
  match x with
  | Num a => if Rlt_dec a exp_underflow then Num 0 else Num (exp a)
  | NaN => NaN
  end.

Definition Math_max (x y : number) : number :=
  match x, y with
  | Num a, Num b => Num (Rmax a b)
  | _, _ => NaN
  end.

(** [x > y]; false as soon as one side is [NaN]. *)
Definition num_gt (x y : number) : bool :=
  match x, y with
  | Num a, Num b => if Rlt_dec b a then true else false
  | _, _ => false
  end.

(** ** Strings

    A string is a sequence of characters, which stand for its UTF-16 code
    units; [String.length] is the [length] property and [String.eqb] is
    [===] on two strings. *)

(** The edit distance that [js-levenshtein] computes: the least number of
    single-character insertions, deletions and substitutions. *)
Definition min3 (a b c : nat) : nat := Nat.min a (Nat.min b c).

Fixpoint lev (s t : list ascii) {struct s} : nat :=
  match s with
  | [] => List.length t
  | a :: s' =>
      (fix lev_row (t : list ascii) : nat :=
         match t with
         | [] => S (List.length s')
         | b :: t' =>
             min3 (S (lev s' t))
                  (S (lev_row t'))
                  (lev s' t' + (if Ascii.eqb a b then 0 else 1))
         end) t
  end.

Definition levenshtein (str1 str2 : string) : nat :=
  lev (list_ascii_of_string str1) (list_ascii_of_string str2).

(** [stringSimilarity(str1, str2)]. *)
Definition stringSimilarity (str1 str2 : string) : number :=
  let distance := levenshtein str1 str2 in
  let maxLength := Nat.max (String.length str1) (String.length str2) in
  num_sub (Num 1) (num_div (Num (INR distance)) (Num (INR maxLength))).

(** ** Identifiers *)

(** [\d]: an ASCII digit. *)
Definition is_digit (c : ascii) : bool :=
  (48 <=? nat_of_ascii c)%nat && (nat_of_ascii c <=? 57)%nat.

Fixpoint all_digits (s : string) : bool :=
  match s with
  | EmptyString => true
  | String c r => is_digit c && all_digits r
  end.

(** Whether [/v\d+$/] matches [s] from its first character on. *)
Definition version_marker (s : string) : bool :=
  match s with
  | String c r => Ascii.eqb c "v" && negb (r =? "") && all_digits r
  | EmptyString => false
  end.

(** [s.replace(/v\d+$/, '')]: the leftmost match is removed, and a match
    always reaches the end of the string. *)
Fixpoint strip_version (s : string) : string :=
  match s with
  | EmptyString => EmptyString
  | String c r => if version_marker s then EmptyString else String c (strip_version r)
  end.

(** Whether a possibly absent string is truthy: present and not empty. *)
Definition truthy (o : option string) : bool :=
  match o with
  | Some s => negb (s =? "")
  | None => false
  end.

(** ** Publications *)

(** [title_s] is a string or an array of strings, one per language. *)
Inductive title_value : Type :=
| TitleString (s : string)
| TitleArray (l : list string).

(** A date field holds a date-like string or a [Date] object; the time value
    of a [Date] is a number of milliseconds, or [None] for an invalid date. *)
Inductive date_value : Type :=
| DateString (s : string)
| DateObject (time : option Z).

(** The fields of a HAL publication that the engine reads; [None] is a
    field that is [undefined] or [null]. *)
Record HalPublication : Type := {
  halId_s : option string;
  doiId_s : option string;
  title_s : option title_value;
  authors_t : option (list string);
  publicationDate_s : option date_value
}.

(** The fields of a local publication that the engine reads. *)
Record LocalPublication : Type := {
  hal : option string;
  doi : option string;
  title : option string;
  authors : option (list string);
  date : option date_value
}.

Record MatchResult : Type := {
  best : option LocalPublication;
  confidence : number
}.

(** [array.join(', ')]. *)
Fixpoint join (l : list string) : string :=
  match l with
  | [] => ""
  | [s] => s
  | s :: r => s ++ ", " ++ join r
  end.

(** [haveSameHalID(target, candidate)], as the condition it is used for. *)
Definition haveSameHalID (target : HalPublication) (candidate : LocalPublication) : bool :=
  let targetHal :=
    if truthy (halId_s target) then option_map strip_version (halId_s target)
    else halId_s target in
  let candidateHal :=
    if truthy (hal candidate) then option_map strip_version (hal candidate)
    else hal candidate in
  truthy targetHal &&
  match targetHal, candidateHal with
  | Some a, Some b => a =? b
  | _, _ => false
  end.

(** [haveSameDOI(target, candidate)]. *)
Definition haveSameDOI (target : HalPublication) (candidate : LocalPublication) : bool :=
  let targetDOI := doiId_s target in
  let candidateDOI := doi candidate in
  match targetDOI, candidateDOI with
  | Some a, Some b => a =? b
  | _, _ => false
  end.

(** ** The similarity sub-measures and the engine *)

Section Engine.

(** [new Date(s).getTime()] for a non-empty string [s]: the time value in
    milliseconds, or [None] when the string is not recognised (an invalid
    date, whose time value is [NaN]).  The formats recognised beyond the
    ISO ones depend on the JavaScript engine, so the parser is a parameter. *)
Variable Date_parse : string -> option Z.

(** [computeTitleSimilarity(target, candidate)]. *)
Definition computeTitleSimilarity (target : HalPublication) (candidate : LocalPublication) : number :=
  let halTitle := title_s target in
  let candidateTitle := title candidate in
  match halTitle, candidateTitle with
  | Some (TitleString h), Some c =>
      if negb (h =? "") && negb (c =? "") then stringSimilarity h c else NaN
  | Some (TitleArray hs), Some c =>
      if negb (c =? "") then
        fold_left Math_max
          (map (fun langHalTitle => stringSimilarity langHalTitle c) hs)
          (Num 0)
      else NaN
  | _, _ => NaN
  end.

(** [computeAuthorsSimilarity(target, candidate)]. *)
Definition computeAuthorsSimilarity (target : HalPublication) (candidate : LocalPublication) : number :=
  let targetAuthors := option_map join (authors_t target) in
  let candidateAuthors := option_map join (authors candidate) in
  match targetAuthors, candidateAuthors with
  | Some a, Some b =>
      if truthy targetAuthors && truthy candidateAuthors then stringSimilarity a b
      else NaN
  | _, _ => NaN
  end.

(** The date a field stands for once [new Date] has been applied to a
    truthy value that is not a [Date] yet: [None] when the field is falsy
    (absent or the empty string), else the time value of the [Date]. *)
Definition asDate (d : option date_value) : option (option Z) :=
  match d with
  | None => None
  | Some (DateString s) => if s =? "" then None else Some (Date_parse s)
  | Some (DateObject time) => Some time
  end.

(** The number a [Date] converts to in an arithmetic expression. *)
Definition timeValue (time : option Z) : number :=
  match time with
  | Some ms => Num (IZR ms)
  | None => NaN
  end.

(** [computeDateSimilarity(target, candidate)]. *)
Definition computeDateSimilarity (target : HalPublication) (candidate : LocalPublication) : number :=
  match asDate (publicationDate_s target), asDate (date candidate) with
  | Some targetDate, Some candidateDate =>
      let differenceInMs :=
        Math_abs (num_sub (timeValue candidateDate) (timeValue targetDate)) in
      let differenceInDays :=
        num_div differenceInMs (Num (1000 * 60 * 60 * 24)) in
      Math_exp (num_div (num_neg differenceInDays) (Num 150))
  | _, _ => NaN
  end.

(** The measures that enter the average: [measure != null && !isNaN(measure)]
    (a sub-measure is always a number, never [null]). *)
Definition validMeasures (target : HalPublication) (candidate : LocalPublication) : list number :=
  let titleSimilarity := computeTitleSimilarity target candidate in
  let authorsSimilarity := computeAuthorsSimilarity target candidate in
  let dateSimilarity := computeDateSimilarity target candidate in
  filter (fun measure => negb (isNaN measure))
    [titleSimilarity; authorsSimilarity; dateSimilarity; authorsSimilarity].

(** The confidence of a candidate that fired no exact-identifier rule:
    [validMeasures.reduce((a,b) => a + b, 0) / validMeasures.length]. *)
Definition fusedConfidence (target : HalPublication) (candidate : LocalPublication) : number :=
  let valid := validMeasures target candidate in
  num_div (fold_left num_add valid (Num 0)) (Num (INR (List.length valid))).

(** The [for] loop of [findCorrespondingPublication], with its two local
    variables as arguments. *)
Fixpoint matchLoop (target : HalPublication) (candidates : list LocalPublication)
  (best_candidate : option LocalPublication) (best_confidence : number) : MatchResult :=
  match candidates with
  | [] => {| best := best_candidate; confidence := best_confidence |}
  | candidate :: rest =>
      if haveSameHalID target candidate then
        {| best := Some candidate; confidence := Num 1 |}
      else if haveSameDOI target candidate then
        {| best := Some candidate; confidence := Num 1 |}
      else
        let confidence := fusedConfidence target candidate in
        if num_gt confidence best_confidence then
          matchLoop target rest (Some candidate) confidence
        else
          matchLoop target rest best_candidate best_confidence
  end.

(** [findCorrespondingPublication(targetHalPublication, existingPublications)]. *)
Definition findCorrespondingPublication (targetHalPublication : HalPublication)
  (existingPublications : list LocalPublication) : MatchResult :=
  matchLoop targetHalPublication existingPublications None (Num 0).

(** A candidate fires an exact-identifier rule. *)
Definition exactMatch (target : HalPublication) (candidate : LocalPublication) : bool :=
  haveSameHalID target candidate || haveSameDOI target candidate.

End Engine.

(** ** The forward pass, whatever the fusion yields

    The loop of [findCorrespondingPublication] once more, with the value
    that [confidence] takes for a candidate (the sub-measures, the filter
    and the division) taken as given.  What holds of this loop for every
    such value holds of the code's loop with the doubles it computes: the
    test [confidence > best_confidence] compares two numbers exactly. *)

Section ForwardPass.

Variable target : HalPublication.
Variable confidenceOf : LocalPublication -> number.


End ForwardPass.

(** ** The specification's vocabulary *)

(** The values of the computable (not [NaN]) measures of a list. *)
Fixpoint computable_values (measures : list number) : list R :=
  match measures with
  | [] => []
  | NaN :: rest => computable_values rest
  | Num r :: rest => r :: computable_values rest
  end.

Definition Rsum (values : list R) : R := fold_right Rplus 0%R values.

(** The arithmetic mean of the collected values; there is none to take of
    an empty collection. *)
Definition arithmetic_mean (values : list R) : number :=
  match values with
  | [] => NaN
  | _ :: _ => Num (Rsum values / INR (List.length values))
  end.

(** A sub-measure is either not computable or a value in [[0,1]]. *)
Definition unit_or_NaN (x : number) : Prop :=
  match x with
  | NaN => True
  | Num r => (0 <= r <= 1)%R
  end.

(** [x] is not greater than [y]: the test [x > y] of the loop fails. *)
Definition not_above (x : number) (y : R) : Prop :=
  match x with
  | NaN => True
  | Num r => (r <= y)%R
  end.

(** [x] is below [y]: it could not have been kept against [y]. *)
Definition strictly_below (x : number) (y : R) : Prop :=
  match x with
  | NaN => True
  | Num r => (r < y)%R
  end.

(** The absolute difference, in days, between two time values. *)
Definition days_between (a b : Z) : R :=
  (Rabs (IZR b - IZR a) / (1000 * 60 * 60 * 24))%R.

(** The exact-identifier rules, in the specification's words: the
    identifiers, both stripped of a version marker, are equal and not
    empty; or the alternate identifiers are both present and equal. *)
Definition identifier_rule (target : HalPublication) (candidate : LocalPublication) : Prop :=
  exists x y : string,
    halId_s target = Some x /\ hal candidate = Some y /\
    strip_version y <> "" /\ strip_version y = strip_version x.

Definition alternate_identifier_rule (target : HalPublication) (candidate : LocalPublication) : Prop :=
  exists x : string, doiId_s target = Some x /\ doi candidate = Some x.

Definition exact_identifier_rule (target : HalPublication) (candidate : LocalPublication) : Prop :=
  identifier_rule target candidate \/ alternate_identifier_rule target candidate.

(** A string ends with a version marker: [prefix ++ "v" ++ digits], with at
    least one digit. *)
Definition has_version_marker (s prefix : string) : Prop :=
  exists digits : string,
    s = (prefix ++ String "v" digits)%string /\ digits <> "" /\
    all_digits digits = true.

(** ** A sample date parser

    Date-only ISO strings [YYYY-MM-DD] naming a day of the calendar are
    read by every JavaScript engine as midnight UTC of that day.  The
    sample parser recognises those and nothing else; it instantiates
    [Date_parse] in the concrete runs below. *)

Definition digit_value (c : ascii) : option Z :=
  if is_digit c then Some (Z.of_nat (nat_of_ascii c) - 48)%Z else None.

Fixpoint digits_value (acc : Z) (l : list ascii) : option Z :=
  match l with
  | [] => Some acc
  | c :: r =>
      match digit_value c with
      | Some d => digits_value (10 * acc + d)%Z r
      | None => None
      end
  end.

Definition is_leap (y : Z) : bool :=
  ((y mod 4 =? 0) && negb (y mod 100 =? 0) || (y mod 400 =? 0))%Z.

Definition days_in_month (y m : Z) : Z :=
  if (m =? 2)%Z then (if is_leap y then 29 else 28)%Z
  else if ((m =? 4) || (m =? 6) || (m =? 9) || (m =? 11))%Z then 30%Z
  else 31%Z.

(** Days between 1970-01-01 and the day [d] of month [m] of year [y]. *)
Definition days_from_civil (y m d : Z) : Z :=
  let y' := (if m <=? 2 then y - 1 else y)%Z in
  let era := (y' / 400)%Z in
  let yoe := (y' - era * 400)%Z in
  let mp := ((m + 9) mod 12)%Z in
  let doy := ((153 * mp + 2) / 5 + d - 1)%Z in
  let doe := (yoe * 365 + yoe / 4 - yoe / 100 + doy)%Z in
  (era * 146097 + doe - 719468)%Z.

Definition iso_date_parse (s : string) : option Z :=
  match list_ascii_of_string s with
  | [y1; y2; y3; y4; d1; m1; m2; d2; a1; a2] =>
      if Ascii.eqb d1 "-" && Ascii.eqb d2 "-" then
        match digits_value 0 [y1; y2; y3; y4],
              digits_value 0 [m1; m2],
              digits_value 0 [a1; a2] with
        | Some y, Some m, Some d =>
            if ((1 <=? m) && (m <=? 12) && (1 <=? d) && (d <=? days_in_month y m))%Z
            then Some (days_from_civil y m d * 86400000)%Z
            else None
        | _, _, _ => None
        end
      else None
  | _ => None
  end.

(** ** Sample publications *)

(** A target and a candidate with no field at all. *)
Definition bare_target : HalPublication :=
  {| halId_s := None; doiId_s := None; title_s := None;
     authors_t := None; publicationDate_s := None |}.

Definition bare_candidate : LocalPublication :=
  {| hal := None; doi := None; title := None; authors := None; date := None |}.

(** Scenario 2 of the specification: same title, same authors, dates five
    days apart, no identifier in common. *)
Definition scenario2_target : HalPublication :=
  {| halId_s := Some "hal-000222"; doiId_s := None;
     title_s := Some (TitleArray ["Deep Learning for X"]);
     authors_t := Some ["J Smith"];
     publicationDate_s := Some (DateString "2020-06-15") |}.

Definition scenario2_candidate : LocalPublication :=
  {| hal := None; doi := None;
     title := Some "Deep Learning for X";
     authors := Some ["J Smith"];
     date := Some (DateString "2020-06-20") |}.

(** Scenario 3 of the specification: the target has a date only, the
    candidate a title only, so that no measure is computable. *)
Definition scenario3_target : HalPublication :=
  {| halId_s := Some "hal-000333"; doiId_s := None; title_s := None;
     authors_t := None; publicationDate_s := Some (DateString "2019-01-31") |}.

Definition scenario3_candidate : LocalPublication :=
  {| hal := None; doi := None; title := Some "Sparse Records";
     authors := None; date := None |}.

(** Titles with no character in common, and nothing else to compare. *)
Definition disjoint_target : HalPublication :=
  {| halId_s := None; doiId_s := None; title_s := Some (TitleString "abc");
     authors_t := None; publicationDate_s := None |}.

Definition disjoint_candidate : LocalPublication :=
  {| hal := None; doi := None; title := Some "xyz"; authors := None; date := None |}.

(** A target whose date is not a date. *)
Definition malformed_date_target : HalPublication :=
  {| halId_s := None; doiId_s := None;
     title_s := Some (TitleArray ["Deep Learning for X"]);
     authors_t := Some ["J Smith"];
     publicationDate_s := Some (DateString "in press") |}.

(** A target and a candidate whose alternate identifier is the empty string. *)
Definition blank_doi_target : HalPublication :=
  {| halId_s := Some "hal-000444"; doiId_s := Some ""; title_s := None;
     authors_t := None; publicationDate_s := None |}.

Definition blank_doi_candidate : LocalPublication :=
  {| hal := None; doi := Some ""; title := Some "Unrelated"; authors := None;
     date := None |}.

(** A target whose array of titles is empty. *)
Definition untitled_target : HalPublication :=
  {| halId_s := None; doiId_s := None; title_s := Some (TitleArray []);
     authors_t := Some ["J Smith"];
     publicationDate_s := Some (DateString "2020-06-15") |}.

(** Dates centuries apart: a target of 2020 and candidates of 1700 and of
    1600. *)
Definition year2020_target : HalPublication :=
  {| halId_s := None; doiId_s := None; title_s := None; authors_t := None;
     publicationDate_s := Some (DateString "2020-01-01") |}.

Definition year1700_candidate : LocalPublication :=
  {| hal := None; doi := None; title := None; authors := None;
     date := Some (DateString "1700-01-01") |}.

Definition year1600_candidate : LocalPublication :=
  {| hal := None; doi := None; title := None; authors := None;
     date := Some (DateString "1600-01-01") |}.


(** Scenario 1 of the specification: the identifiers agree up to the
    version marker, every other field differs. *)
Definition scenario1_target : HalPublication :=
  {| halId_s := Some "hal-000111v2"; doiId_s := None;
     title_s := Some (TitleArray ["Fast Graphs"]);
     authors_t := Some ["A Dupont"; "B Martin"];
     publicationDate_s := Some (DateString "2021-03-01") |}.

Definition scenario1_candidate : LocalPublication :=
  {| hal := Some "hal-000111"; doi := None;
     title := Some "Slow Trees"; authors := None; date := None |}.

(** ** Abrupt completion

    A call either returns a value or throws; the two errors of the
    repository's own code paths are the [TypeError] of a property read on
    [null] or [undefined] and an [Error] built with a message. *)

Inductive error : Type :=
| TypeError
| Error (message : string).

Inductive completion (A : Type) : Type :=
| Normal (value : A)
| Throw (e : error).

Arguments Normal {A} value.
Arguments Throw {A} e.

(** [x >= y]; false as soon as one side is [NaN]. *)
Definition num_ge (x y : number) : bool :=
  match x, y with
  | Num a, Num b => if Rle_dec b a then true else false
  | _, _ => false
  end.

(** ** String and array built-ins used by the reader of local publications *)

Definition LF : ascii := "010"%char.

Definition CR : ascii := "013"%char.

(** The white space and line terminators that [trim] removes, among the
    code units below 256: TAB, LF, VT, FF, CR, SP and NBSP. *)
Definition is_whitespace (c : ascii) : bool :=
  let n := nat_of_ascii c in
  ((9 <=? n)%nat && (n <=? 13)%nat) || (n =? 32)%nat || (n =? 160)%nat.

Fixpoint trimStart (s : string) : string :=
  match s with
  | EmptyString => EmptyString
  | String c r => if is_whitespace c then trimStart r else s
  end.

Fixpoint trimEnd (s : string) : string :=
  match s with
  | EmptyString => EmptyString
  | String c r =>
      match trimEnd r with
      | EmptyString => if is_whitespace c then EmptyString else String c EmptyString
      | r' => String c r'
      end
  end.

(** [s.trim()]. *)
Definition trim (s : string) : string := trimEnd (trimStart s).

(** A string of white space only. *)
Fixpoint all_whitespace (s : string) : bool :=
  match s with
  | EmptyString => true
  | String c r => is_whitespace c && all_whitespace r
  end.

(** [s.split('\n')]: never an empty array. *)
Fixpoint split_lines (s : string) : list string :=
  match s with
  | EmptyString => [EmptyString]
  | String c r =>
      if Ascii.eqb c LF then EmptyString :: split_lines r
      else match split_lines r with
           | l :: ls => String c l :: ls
           | [] => [String c EmptyString]
           end
  end.

(** [array.join(sep)]. *)
Fixpoint join_with (sep : string) (l : list string) : string :=
  match l with
  | [] => ""
  | [s] => s
  | s :: r => s ++ sep ++ join_with sep r
  end.

(** [array.indexOf(searchElement, fromIndex)] for [fromIndex >= 0]: the
    first index from [fromIndex] on that holds [searchElement], or -1.
    [k] is the index of the head of [l]. *)
Fixpoint indexOf_at (searchElement : string) (fromIndex k : nat) (l : list string) : Z :=
  match l with
  | [] => (-1)%Z
  | y :: r =>
      if (fromIndex <=? k)%nat && (y =? searchElement) then Z.of_nat k
      else indexOf_at searchElement fromIndex (S k) r
  end.

Definition indexOf (searchElement : string) (fromIndex : nat) (l : list string) : Z :=
  indexOf_at searchElement fromIndex 0 l.

(** [array.slice(start, end)]: a negative index counts from the end, and
    both are clamped to the array. *)
Definition slice {A : Type} (start end_ : Z) (l : list A) : list A :=
  let len := Z.of_nat (List.length l) in
  let k := (if start <? 0 then Z.max (len + start) 0 else Z.min start len)%Z in
  let final := (if end_ <? 0 then Z.max (len + end_) 0 else Z.min end_ len)%Z in
  firstn (Z.to_nat (final - k)) (skipn (Z.to_nat k) l).

(** ** Reading a local publication

    What [readExistingPublicationDetails] does with the content of
    [index.md] up to the call of a parser: the text it cuts out and the
    parser it hands it to, or the error it throws before calling one.
    [Normal (Toml s)] and [Normal (Yaml s)] are the calls [toml.parse(s)]
    and [yaml.load(s)] being reached; what the parser returns or throws,
    and the two writes on its result that close the function, come after
    and are not part of [frontmatterOf]. *)

Inductive frontmatter : Type :=
| Toml (documentStr : string)
| Yaml (documentStr : string).

Definition frontmatterOf (content : string) : completion frontmatter :=
  let documentStr := trim content in
  let lines := split_lines documentStr in
  let delimiter := hd EmptyString lines in
  let nextDelimiterIndex := indexOf delimiter 2 lines in
  let documentStr := join_with (String LF EmptyString) (slice 1 nextDelimiterIndex lines) in
  if delimiter =? "+++" then Normal (Toml documentStr)
  else if delimiter =? "---" then Normal (Yaml documentStr)
  else Throw (Error ("Unrecognized delimiter: " ++ delimiter)).

(** The parser the text goes to, by its delimiter. *)
Definition parserFor (delimiter : string) : string -> frontmatter :=
  if delimiter =? "+++" then Toml else Yaml.

(** A publication in YAML, one in TOML with no closing delimiter, and one
    with Windows line ends. *)
Definition yaml_index_md : string :=
  join_with (String LF EmptyString)
    [""; "---"; "title: Fast Graphs"; "hal: hal-000111"; "---"; "Some text."; ""].

Definition unclosed_index_md : string :=
  join_with (String LF EmptyString)
    ["+++"; "title = 'Fast Graphs'"; "hal = 'hal-000111'"].

Definition crlf_index_md : string :=
  join_with (String CR (String LF EmptyString))
    ["---"; "title: Fast Graphs"; "---"; ""].

(** ** The main loop

    The part of [run] between the two providers and the creation of files:
    one result per HAL publication, then the publications that found no
    acceptable match; and the order and counts of [logToSummary]. *)

Module Main.

Record Result : Type := {
  target : HalPublication;
  candidate : LocalPublication;
  confidence : number;
  accepted : bool
}.

Section Run.

Variable Date_parse : string -> option Z.

(** The body of the loop over the HAL publications.  The message passed to
    [core.debug] reads [best['folderName']], which throws a [TypeError]
    when [best] is [null]. *)
Definition compareOne (confidenceThreshold : number)
  (localPublications : list LocalPublication) (halPublication : HalPublication)
  : completion Result :=
  match findCorrespondingPublication Date_parse halPublication localPublications with
  | Build_MatchResult best matchConfidence =>
      let isAccepted := num_ge matchConfidence confidenceThreshold in
      match best with
      | None => Throw TypeError
      | Some b =>
          Normal {| target := halPublication; candidate := b;
                    confidence := matchConfidence; accepted := isAccepted |}
      end
  end.

(** The loop, with [results] as it stands on entry. *)
Fixpoint compareLoop (confidenceThreshold : number)
  (localPublications : list LocalPublication) (halPublications : list HalPublication)
  (results : list Result) : completion (list Result) :=
  match halPublications with
  | [] => Normal results
  | halPublication :: rest =>
      match compareOne confidenceThreshold localPublications halPublication with
      | Throw e => Throw e
      | Normal r =>
          compareLoop confidenceThreshold localPublications rest (results ++ [r])
      end
  end.

Definition compareAll (confidenceThreshold : number)
  (localPublications : list LocalPublication) (halPublications : list HalPublication)
  : completion (list Result) :=
  compareLoop confidenceThreshold localPublications halPublications [].

(** A result holds what the engine returned for its target, and whether
    that reaches the threshold. *)
Definition recorded (confidenceThreshold : number)
  (localPublications : list LocalPublication) (r : Result) : Prop :=
  findCorrespondingPublication Date_parse (target r) localPublications =
    Build_MatchResult (Some (candidate r)) (confidence r) /\
  accepted r = num_ge (confidence r) confidenceThreshold.

End Run.

(** [results.filter(result => !result.accepted).map(result => result.target)]. *)
Definition missingPublications (results : list Result) : list HalPublication :=
  map target (filter (fun result => negb (accepted result)) results).

(** The two counts of [logToSummary]. *)
Definition notFound (results : list Result) : nat :=
  List.length (filter (fun result => negb (accepted result)) results).

Definition found (results : list Result) : nat :=
  List.length (filter (fun result => accepted result) results).

(** [res1.accepted - res2.accepted]: booleans subtract as 0 and 1. *)
Definition byAccepted (res1 res2 : Result) : Z :=
  (Z.b2z (accepted res1) - Z.b2z (accepted res2))%Z.

End Main.

(** [array.toSorted(compareFn)]: the sort is stable, so that for a
    consistent comparator the result is that of any stable sort; here, of
    insertion from the right. *)
Fixpoint sortedInsert {A : Type} (compareFn : A -> A -> Z) (x : A) (l : list A) : list A :=
  match l with
  | [] => [x]
  | y :: r =>
      if (compareFn x y <=? 0)%Z then x :: y :: r
      else y :: sortedInsert compareFn x r
  end.

Fixpoint toSorted {A : Type} (compareFn : A -> A -> Z) (l : list A) : list A :=
  match l with
  | [] => []
  | x :: r => sortedInsert compareFn x (toSorted compareFn r)
  end.

(** ** HAL documents

    A document of the HAL response is an object whose values are strings
    or arrays of strings; a key it does not hold reads as [undefined]. *)

Inductive json : Type :=
| JString (s : string)
| JArray (elements : list string).

Definition HalDoc : Type := list (string * json).

(** [publication[key]]. *)
Fixpoint get (key : string) (publication : HalDoc) : option json :=
  match publication with
  | [] => None
  | (k, v) :: rest => if k =? key then Some v else get key rest
  end.

(** Whether a value is truthy: an array always is, a string unless empty. *)
Definition truthy_json (v : option json) : bool :=
  match v with
  | None => false
  | Some (JString s) => negb (s =? "")
  | Some (JArray _) => true
  end.

(** The text a value becomes inside a template literal. *)
Definition template (v : option json) : string :=
  match v with
  | None => "undefined"
  | Some (JString s) => s
  | Some (JArray l) => join_with "," l
  end.

Definition template_string (v : option string) : string :=
  match v with
  | None => "undefined"
  | Some s => s
  end.

(** [a || b]. *)
Definition js_or (a b : option json) : option json :=
  if truthy_json a then a else b.

(** The fields requested from the HAL API. *)
Definition fields : list string :=
  ["docid"; "label_s"; "uri_s"; "title_s"; "doiId_s"; "halId_s";
   "abstract_s"; "keyword_s"; "publicationDate_s"; "publicationLocation_s";
   "authFullName_s"; "bookTitle_s"; "conferenceTitle_s"; "docType_s";
   "journalTitle_s"; "label_bibtex"].

(** The keys of a document. *)
Definition keys (publication : HalDoc) : list string := map fst publication.

(** The document as the matching engine reads it, when the five keys it
    reads hold values of the shapes the engine is modelled for: a string
    for the two identifiers and the date, a string or an array for the
    title, an array for the authors. *)
Definition string_field (v : option json) : option (option string) :=
  match v with
  | None => Some None
  | Some (JString s) => Some (Some s)
  | Some (JArray _) => None
  end.

Definition array_field (v : option json) : option (option (list string)) :=
  match v with
  | None => Some None
  | Some (JArray l) => Some (Some l)
  | Some (JString _) => None
  end.

Definition title_field (v : option json) : option title_value :=
  match v with
  | None => None
  | Some (JString s) => Some (TitleString s)
  | Some (JArray l) => Some (TitleArray l)
  end.

Definition asTarget (publication : HalDoc) : option HalPublication :=
  match string_field (get "halId_s" publication),
        string_field (get "doiId_s" publication),
        array_field (get "authors_t" publication),
        string_field (get "publicationDate_s" publication) with
  | Some halId, Some doiId, Some authorsT, Some publicationDate =>
      Some {| halId_s := halId; doiId_s := doiId;
              title_s := title_field (get "title_s" publication);
              authors_t := authorsT;
              publicationDate_s := option_map DateString publicationDate |}
  | _, _, _, _ => None
  end.

(** ** Creating the files of a missing publication *)

(** The double quote. *)
Definition DQ : string := String "034"%char EmptyString.

(** Lines, each closed by a line feed. *)
Fixpoint unlines (lines : list string) : string :=
  match lines with
  | [] => ""
  | l :: rest => l ++ String LF EmptyString ++ unlines rest
  end.

(** [parsePublicationType(type)]. *)
Definition parsePublicationType (type : option json) : string :=
  match type with
  | Some (JString s) =>
      if s =? "COMM" then "conference"
      else if s =? "ART" then "journal"
      else if s =? "REPORT" then "report"
      else if s =? "SOFTWARE" then "software"
      else ""
  | _ => ""
  end.

(** [formatArray(array)]; a string that is not empty has no [map]. *)
Definition formatArray (array : option json) : completion string :=
  match array with
  | Some (JArray l) =>
      Normal ("[" ++ join_with ", " (map (fun s => DQ ++ s ++ DQ)%string l) ++ "]")%string
  | Some (JString s) => if s =? "" then Normal "[ ]" else Throw TypeError
  | None => Normal "[ ]"
  end.

(** The lines of the template of [createIndexMdFile], between the two
    delimiters. *)
Definition indexMdBody (title date authors publicationType publicationName
  publicationShortName abstract tags halId doiLine : string) : list string :=
  [ "title = " ++ DQ ++ title ++ DQ;
    "date = " ++ date;
    "authors = " ++ authors;
    "profile = false";
    "";
    "publication_types = [" ++ DQ ++ publicationType ++ DQ ++ "]";
    "publication = " ++ DQ ++ publicationName ++ DQ;
    "publication_short = " ++ DQ ++ publicationShortName ++ DQ;
    "";
    "abstract = " ++ DQ ++ DQ ++ DQ;
    abstract;
    DQ ++ DQ ++ DQ;
    "";
    "# summary = " ++ DQ ++ DQ ++ DQ;
    "# ";
    "# " ++ DQ ++ DQ ++ DQ;
    "";
    "tags = " ++ tags;
    "featured = false";
    "";
    "hal = " ++ DQ ++ halId ++ DQ;
    doiLine;
    "";
    "# [[links]]";
    "# url = " ++ DQ ++ "https://arxiv.org/abs/..." ++ DQ;
    "# name = " ++ DQ ++ "ArXiv" ++ DQ;
    "# icon_pack = " ++ DQ ++ "ai" ++ DQ;
    "# icon = " ++ DQ ++ "arxiv" ++ DQ;
    "" ]%string.

(** [createIndexMdFile(publication)]. *)
Definition createIndexMdFile (publication : HalDoc) : completion string :=
  let title :=
    match get "title_s" publication with
    | Some (JArray l) => template_string (hd_error l)
    | other => template other
    end in
  let date := template (get "publicationDate_s" publication) in
  match formatArray (get "authFullName_s" publication) with
  | Throw e => Throw e
  | Normal authors =>
      let publicationType := parsePublicationType (get "docType_s" publication) in
      let publicationName :=
        template (js_or (js_or (get "conferenceTitle_s" publication)
                               (get "journalTitle_s" publication))
                        (get "bookTitle_s" publication)) in
      let publicationShortName := "" in
      match get "abstract_s" publication with
      | Some (JArray l) =>
          let abstract := join_with (String LF EmptyString) l in
          match formatArray (get "keyword_s" publication) with
          | Throw e => Throw e
          | Normal tags =>
              let halId := template (get "halId_s" publication) in
              let doi := get "doiId_s" publication in
              let doiLine :=
                (if truthy_json doi then "doi = " ++ DQ ++ template doi ++ DQ
                 else "")%string in
              Normal (unlines
                        (["+++"] ++
                         indexMdBody title date authors publicationType
                           publicationName publicationShortName abstract tags
                           halId doiLine ++
                         ["+++"]))
          end
      | _ => Throw TypeError
      end
  end.

(** The file system as the sequence of the calls made on it; the calls
    themselves are taken to succeed. *)
Inductive fs_call : Type :=
| mkdirSync (path : string)
| writeFileSync (path data : string).

(** [createFiles(publication)], with the value of the [local-path] input
    and the calls made so far; [writeFileSync] takes no array for data. *)
Definition createFiles (localPath : string) (publication : HalDoc)
  (fs : list fs_call) : completion (list string) * list fs_call :=
  let folderName := template (get "halId_s" publication) in
  let pathToFolder := (localPath ++ "/" ++ folderName)%string in
  let fs := fs ++ [mkdirSync pathToFolder] in
  let pathToIndexMd := (pathToFolder ++ "/index.md")%string in
  match createIndexMdFile publication with
  | Throw e => (Throw e, fs)
  | Normal data =>
      let fs := fs ++ [writeFileSync pathToIndexMd data] in
      let createdFiles := [pathToIndexMd] in
      if truthy_json (get "label_bibtex" publication) then
        let pathToCiteBib := (pathToFolder ++ "/cite.bib")%string in
        match get "label_bibtex" publication with
        | Some (JString bibtex) =>
            (Normal (createdFiles ++ [pathToCiteBib]),
             fs ++ [writeFileSync pathToCiteBib bibtex])
        | _ => (Throw TypeError, fs)
        end
      else (Normal createdFiles, fs)
  end.

(** The opening of the body of the pull request. *)
Definition bodyHeader : string :=
  unlines
    ["Automatic Pull Request from GH-Hal-Updater.";
     "";
     "The following HAL publications were considered missing and are added in this PR: ";
     ""].

(** The loop of [createPullRequests], with its two variables and the calls
    made so far. *)
Fixpoint createLoop (localPath : string) (publications : list HalDoc)
  (allCreatedFiles : list string) (body : string) (fs : list fs_call)
  : completion (list string * string) * list fs_call :=
  match publications with
  | [] => (Normal (allCreatedFiles, body), fs)
  | publication :: rest =>
      match createFiles localPath publication fs with
      | (Throw e, fs') => (Throw e, fs')
      | (Normal createdFiles, fs') =>
          createLoop localPath rest (allCreatedFiles ++ createdFiles)
            (body ++ "- [" ++ template (get "halId_s" publication) ++ "](" ++
             template (get "uri_s" publication) ++ ")" ++
             String LF (String LF EmptyString))%string
            fs'
      end
  end.

(** [createPullRequests(publications)]. *)
Definition createPullRequests (localPath : string) (publications : list HalDoc)
  (fs : list fs_call) : completion (list string * string) * list fs_call :=
  createLoop localPath publications [] bodyHeader fs.

(** The paths written by a sequence of calls. *)
Fixpoint written (fs : list fs_call) : list string :=
  match fs with
  | [] => []
  | mkdirSync _ :: rest => written rest
  | writeFileSync path _ :: rest => path :: written rest
  end.

(** Sample documents: a publication as HAL returns it, and one without an
    abstract. *)
Definition sample_doc : HalDoc :=
  [ ("docid", JString "3456789");
    ("halId_s", JString "hal-000555");
    ("uri_s", JString "https://hal.science/hal-000555");
    ("title_s", JArray ["Fast Graphs"]);
    ("authFullName_s", JArray ["A Dupont"; "B Martin"]);
    ("publicationDate_s", JString "2021-03-01");
    ("docType_s", JString "COMM");
    ("conferenceTitle_s", JString "GraphConf");
    ("abstract_s", JArray ["We go fast."]);
    ("label_bibtex", JString "@inproceedings{dupont}") ].

(** More sample publications: the first version of scenario 1's
    identifier, the title of [disjoint_target] as an array, and a candidate
    with a date and nothing else. *)
Definition versioned_candidate : LocalPublication :=
  {| hal := Some "hal-000111v1"; doi := None; title := None; authors := None;
     date := None |}.

Definition disjoint_array_target : HalPublication :=
  {| halId_s := None; doiId_s := None; title_s := Some (TitleArray ["abc"]);
     authors_t := None; publicationDate_s := None |}.

Definition dated_candidate : LocalPublication :=
  {| hal := None; doi := None; title := None; authors := None;
     date := Some (DateString "2019-01-31") |}.

Definition no_abstract_doc : HalDoc :=
  [ ("halId_s", JString "hal-000666");
    ("uri_s", JString "https://hal.science/hal-000666");
    ("title_s", JArray ["No Summary"]) ].

Example iso_date_parse_ex1 : iso_date_parse "2020-06-15" = Some 1592179200000%Z.
Proof. reflexivity. Qed.

Example iso_date_parse_ex2 : iso_date_parse "2020-06-20" = Some 1592611200000%Z.
Proof. reflexivity. Qed.

Example iso_date_parse_ex3 : iso_date_parse "not a date" = None.
Proof. reflexivity. Qed.

Example strip_version_ex1 : strip_version "hal-000111v2" = "hal-000111".
Proof. reflexivity. Qed.

Example strip_version_ex2 : strip_version "vivo-v12x" = "vivo-v12x".
Proof. reflexivity. Qed.

Example levenshtein_ex1 : levenshtein "kitten" "sitting" = 3.
Proof. vm_compute. reflexivity. Qed.

Example join_ex1 : join ["A Dupont"; "B Martin"] = "A Dupont, B Martin".
Proof. reflexivity. Qed.

(** * Properties *)

(** ** Numbers *)

Lemma num_div_INR_S (a : R) (n : nat) :
  num_div (Num a) (Num (INR (S n))) = Num (a / INR (S n)).
Proof.
  unfold num_div.
  destruct (Req_dec_T (INR (S n)) 0) as [E | _]; [| reflexivity].
  exfalso. revert E. apply not_0_INR. discriminate.
Qed.

Lemma num_div_zero_zero : num_div (Num 0) (Num 0) = NaN.
Proof.
  unfold num_div.
  destruct (Req_dec_T 0 0) as [_ | N]; [reflexivity | now elim N].
Qed.

Lemma num_div_nonzero (a b : R) : b <> 0%R -> num_div (Num a) (Num b) = Num (a / b).
Proof.
  intros Hb. unfold num_div.
  destruct (Req_dec_T b 0) as [E | _]; [contradiction | reflexivity].
Qed.

Lemma ln_2_pos : (0 < ln 2)%R.
Proof. pose proof ln_lt_2. lra. Qed.

Lemma exp_underflow_neg : (exp_underflow < exp_normal < -511)%R.
Proof. unfold exp_underflow, exp_normal. pose proof ln_lt_2. lra. Qed.

Lemma exp_072 : (2 < exp (72 / 100))%R.
Proof.
  pose proof (exp_ineq1 (45 / 1000)) as H0.
  assert (exp (9 / 100) = exp (45 / 1000) * exp (45 / 1000))%R as H1
      by (rewrite <- exp_plus; f_equal; lra).
  assert (exp (18 / 100) = exp (9 / 100) * exp (9 / 100))%R as H2
      by (rewrite <- exp_plus; f_equal; lra).
  assert (exp (36 / 100) = exp (18 / 100) * exp (18 / 100))%R as H3
      by (rewrite <- exp_plus; f_equal; lra).
  assert (exp (72 / 100) = exp (36 / 100) * exp (36 / 100))%R as H4
      by (rewrite <- exp_plus; f_equal; lra).
  set (e := exp (45 / 1000)) in *.
  assert (1045 / 1000 < e)%R as B0
      by (assert (45 / 1000 <> 0)%R as Hn by lra; specialize (H0 Hn); lra).
  assert (1092 / 1000 < exp (9 / 100))%R as B1 by (rewrite H1; nra).
  assert (1192 / 1000 < exp (18 / 100))%R as B2 by (rewrite H2; nra).
  assert (142 / 100 < exp (36 / 100))%R as B3 by (rewrite H3; nra).
  rewrite H4. nra.
Qed.

Lemma ln_2_lt : (ln 2 < 72 / 100)%R.
Proof.
  rewrite <- (ln_exp (72 / 100)). apply ln_increasing; [lra | apply exp_072].
Qed.

Lemma Math_exp_exact (a : R) :
  (exp_underflow <= a)%R -> Math_exp (Num a) = Num (exp a).
Proof.
  intros H. unfold Math_exp.
  destruct (Rlt_dec a exp_underflow); [lra | reflexivity].
Qed.

Lemma Math_exp_underflow (a : R) :
  (a < exp_underflow)%R -> Math_exp (Num a) = Num 0.
Proof.
  intros H. unfold Math_exp.
  destruct (Rlt_dec a exp_underflow); [reflexivity | contradiction].
Qed.

Lemma Math_exp_unit (a : R) :
  (a <= 0)%R -> exists r, Math_exp (Num a) = Num r /\ (0 <= r <= 1)%R.
Proof.
  intros Ha. unfold Math_exp. destruct (Rlt_dec a exp_underflow).
  - exists 0%R. split; [reflexivity | lra].
  - exists (exp a). split; [reflexivity |].
    pose proof (exp_pos a). split; [lra |].
    destruct (Req_dec_T a 0) as [-> | Hne]; [rewrite exp_0; lra |].
    left. rewrite <- exp_0. apply exp_increasing. lra.
Qed.

Lemma num_gt_true (x y : number) :
  num_gt x y = true <-> exists a b, x = Num a /\ y = Num b /\ (b < a)%R.
Proof.
  split.
  - destruct x as [| a], y as [| b]; simpl; try discriminate.
    destruct (Rlt_dec b a); [eauto | discriminate].
  - intros (a & b & -> & -> & H). simpl.
    destruct (Rlt_dec b a); [reflexivity | contradiction].
Qed.

Lemma num_gt_false (x : number) (b : R) :
  num_gt x (Num b) = false <-> not_above x b.
Proof.
  destruct x as [| a]; simpl; [tauto |].
  destruct (Rlt_dec b a); split; intros; try lra; try reflexivity; discriminate.
Qed.

(** ** Edit distance *)

Lemma lev_nil_r (s : list ascii) : lev s [] = List.length s.
Proof. destruct s; reflexivity. Qed.

Lemma lev_cons_cons (a b : ascii) (s t : list ascii) :
  lev (a :: s) (b :: t) =
  min3 (S (lev s (b :: t))) (S (lev (a :: s) t))
       (lev s t + (if Ascii.eqb a b then 0 else 1)).
Proof. reflexivity. Qed.

Lemma lev_sym (s t : list ascii) : lev s t = lev t s.
Proof.
  revert t. induction s as [| a s IHs]; intros t.
  - now rewrite lev_nil_r.
  - induction t as [| b t IHt].
    + reflexivity.
    + rewrite !lev_cons_cons, IHt, (IHs (b :: t)), (IHs t), (Ascii.eqb_sym a b).
      unfold min3. lia.
Qed.

Lemma lev_refl (s : list ascii) : lev s s = 0.
Proof.
  induction s as [| a s IHs]; [reflexivity |].
  rewrite lev_cons_cons, IHs, Ascii.eqb_refl. unfold min3. lia.
Qed.

Lemma lev_le_max (s t : list ascii) :
  lev s t <= Nat.max (List.length s) (List.length t).
Proof.
  revert t. induction s as [| a s IHs]; intros t.
  - simpl. lia.
  - destruct t as [| b t].
    + simpl. lia.
    + rewrite lev_cons_cons. specialize (IHs t).
      assert ((if Ascii.eqb a b then 0 else 1) <= 1) by (destruct (Ascii.eqb a b); lia).
      unfold min3. simpl List.length. lia.
Qed.

Lemma length_list_ascii_of_string (s : string) :
  List.length (list_ascii_of_string s) = String.length s.
Proof. induction s as [| c s IHs]; simpl; congruence. Qed.

Lemma levenshtein_sym (a b : string) : levenshtein a b = levenshtein b a.
Proof. apply lev_sym. Qed.

Lemma levenshtein_refl (a : string) : levenshtein a a = 0.
Proof. apply lev_refl. Qed.

Lemma levenshtein_le_max (a b : string) :
  levenshtein a b <= Nat.max (String.length a) (String.length b).
Proof.
  unfold levenshtein. rewrite <- !length_list_ascii_of_string. apply lev_le_max.
Qed.

Lemma length_zero_empty (s : string) : String.length s = 0 -> s = "".
Proof. destruct s; [reflexivity | discriminate]. Qed.

Lemma max_length_pos (a b : string) :
  a <> "" \/ b <> "" -> exists n, Nat.max (String.length a) (String.length b) = S n.
Proof.
  intros H.
  destruct (Nat.max (String.length a) (String.length b)) as [| n] eqn:E; [| eauto].
  exfalso. destruct H as [H | H]; apply H, length_zero_empty; lia.
Qed.

(** ** String similarity *)

Lemma stringSimilarity_value (a b : string) :
  a <> "" \/ b <> "" ->
  stringSimilarity a b =
  Num (1 - INR (levenshtein a b) / INR (Nat.max (String.length a) (String.length b))).
Proof.
  intros H. unfold stringSimilarity.
  destruct (max_length_pos a b H) as [n ->].
  now rewrite num_div_INR_S.
Qed.

Lemma stringSimilarity_sym (a b : string) : stringSimilarity a b = stringSimilarity b a.
Proof.
  unfold stringSimilarity. now rewrite levenshtein_sym, Nat.max_comm.
Qed.

Lemma stringSimilarity_refl (a : string) : a <> "" -> stringSimilarity a a = Num 1.
Proof.
  intros H. rewrite stringSimilarity_value by now left.
  rewrite levenshtein_refl. simpl INR. f_equal. unfold Rdiv. lra.
Qed.

Lemma stringSimilarity_range (a b : string) :
  a <> "" \/ b <> "" ->
  exists r, stringSimilarity a b = Num r /\ (0 <= r <= 1)%R.
Proof.
  intros H. rewrite stringSimilarity_value by assumption.
  eexists; split; [reflexivity |].
  pose proof (levenshtein_le_max a b) as Hle.
  destruct (max_length_pos a b H) as [n E]. rewrite E in *.
  apply le_INR in Hle.
  pose proof (pos_INR (levenshtein a b)) as H0.
  assert (0 < INR (S n))%R as Hpos by (apply lt_0_INR; lia).
  set (d := INR (levenshtein a b)) in *. set (m := INR (S n)) in *.
  assert (d / m * m = d)%R as Hq by (field; lra).
  assert (0 < / m)%R as Hinv by now apply Rinv_0_lt_compat.
  unfold Rdiv in *. nra.
Qed.

(** ** Fusion *)

Lemma filter_computable (measures : list number) :
  filter (fun measure => negb (isNaN measure)) measures =
  map Num (computable_values measures).
Proof.
  induction measures as [| [| r] rest IH]; simpl; [reflexivity | assumption |].
  now rewrite IH.
Qed.

Lemma fold_num_add (values : list R) (acc : R) :
  fold_left num_add (map Num values) (Num acc) = Num (acc + Rsum values).
Proof.
  revert acc. induction values as [| v rest IH]; intros acc; simpl.
  - f_equal. lra.
  - rewrite IH. f_equal. unfold Rsum. lra.
Qed.

Lemma mean_of_valid (measures : list number) :
  let valid := filter (fun measure => negb (isNaN measure)) measures in
  num_div (fold_left num_add valid (Num 0)) (Num (INR (List.length valid))) =
  arithmetic_mean (computable_values measures).
Proof.
  simpl. rewrite filter_computable, fold_num_add, length_map.
  destruct (computable_values measures) as [| v rest].
  - simpl Rsum. rewrite Rplus_0_r. apply num_div_zero_zero.
  - simpl List.length. rewrite num_div_INR_S. unfold arithmetic_mean.
    simpl List.length. f_equal. f_equal. lra.
Qed.

Lemma Rsum_bounds (values : list R) :
  Forall (fun v => 0 <= v <= 1)%R values ->
  (0 <= Rsum values <= INR (List.length values))%R.
Proof.
  induction 1 as [| v rest Hv _ IH].
  - simpl. lra.
  - change (Rsum (v :: rest)) with (v + Rsum rest)%R.
    change (List.length (v :: rest)) with (S (List.length rest)).
    rewrite S_INR. lra.
Qed.

Lemma computable_values_unit (measures : list number) :
  Forall unit_or_NaN measures ->
  Forall (fun v => 0 <= v <= 1)%R (computable_values measures).
Proof.
  induction 1 as [| [| r] rest H _ IH]; simpl; auto.
Qed.

Lemma arithmetic_mean_unit (values : list R) :
  Forall (fun v => 0 <= v <= 1)%R values -> unit_or_NaN (arithmetic_mean values).
Proof.
  intros H. destruct values as [| v rest]; [exact I |].
  unfold arithmetic_mean, unit_or_NaN.
  pose proof (Rsum_bounds _ H) as [H0 H1].
  set (n := INR (List.length (v :: rest))) in *.
  assert (0 < n)%R as Hn by (apply lt_0_INR; simpl; lia).
  assert (Rsum (v :: rest) / n * n = Rsum (v :: rest))%R as Hq by (field; lra).
  assert (0 < / n)%R as Hinv by now apply Rinv_0_lt_compat.
  unfold Rdiv in *. nra.
Qed.

(** ** The gate *)

(** Stripping applies to truthy identifiers only, and changes nothing on
    the empty one. *)
Lemma guarded_strip (o : option string) :
  (if truthy o then option_map strip_version o else o) = option_map strip_version o.
Proof.
  destruct o as [s |]; simpl; [| reflexivity].
  destruct (s =? "") eqn:E; simpl; [| reflexivity].
  apply String.eqb_eq in E. now subst.
Qed.

Lemma haveSameHalID_iff (target : HalPublication) (candidate : LocalPublication) :
  haveSameHalID target candidate = true <-> identifier_rule target candidate.
Proof.
  unfold haveSameHalID, identifier_rule. rewrite !guarded_strip.
  destruct (halId_s target) as [x |], (hal candidate) as [y |]; simpl.
  - rewrite andb_true_iff, negb_true_iff, String.eqb_eq. split.
    + intros [Hne Heq]. exists x, y. repeat split; try congruence.
      intros E. rewrite Heq, E in Hne. discriminate.
    + intros (x' & y' & [= <-] & [= <-] & Hne & Heq). split; [| congruence].
      rewrite <- Heq. destruct (strip_version y =? "") eqn:E; [| reflexivity].
      apply String.eqb_eq in E. contradiction.
  - rewrite andb_false_r. split; [discriminate |].
    intros (? & ? & _ & [=] & _).
  - split; [discriminate |]. intros (? & ? & [=] & _).
  - split; [discriminate |]. intros (? & ? & [=] & _).
Qed.

Lemma haveSameDOI_iff (target : HalPublication) (candidate : LocalPublication) :
  haveSameDOI target candidate = true <-> alternate_identifier_rule target candidate.
Proof.
  unfold haveSameDOI, alternate_identifier_rule.
  destruct (doiId_s target) as [x |], (doi candidate) as [y |]; simpl.
  - rewrite String.eqb_eq. split.
    + intros ->. eauto.
    + intros (? & [= <-] & [= <-]). reflexivity.
  - split; [discriminate |]. intros (? & _ & [=]).
  - split; [discriminate |]. intros (? & [=] & _).
  - split; [discriminate |]. intros (? & [=] & _).
Qed.

Lemma exactMatch_iff (target : HalPublication) (candidate : LocalPublication) :
  exactMatch target candidate = true <-> exact_identifier_rule target candidate.
Proof.
  unfold exactMatch, exact_identifier_rule.
  now rewrite orb_true_iff, haveSameHalID_iff, haveSameDOI_iff.
Qed.

Lemma exactMatch_false (target : HalPublication) (candidate : LocalPublication) :
  exactMatch target candidate = false <-> ~ exact_identifier_rule target candidate.
Proof.
  rewrite <- exactMatch_iff. destruct (exactMatch target candidate); split;
    congruence || (intros H; exfalso; now apply H) || reflexivity.
Qed.

(** What [replace] removes is a version marker, and only that. *)
Lemma version_marker_spec (s : string) :
  version_marker s = true <-> has_version_marker s "".
Proof.
  unfold version_marker, has_version_marker. split.
  - destruct s as [| c r]; [discriminate |].
    rewrite !andb_true_iff, negb_true_iff. intros [[Hc Hr] Hd].
    apply Ascii.eqb_eq in Hc. subst c. exists r. repeat split; [| assumption].
    intros ->. discriminate.
  - intros (d & -> & Hne & Hd). simpl. rewrite Hd, andb_true_r.
    destruct (d =? "") eqn:E; [| reflexivity].
    apply String.eqb_eq in E. contradiction.
Qed.

Lemma strip_version_marker (prefix digits : string) :
  digits <> "" -> all_digits digits = true ->
  strip_version (prefix ++ String "v" digits) = prefix.
Proof.
  intros Hne Hd.
  assert (version_marker (String "v" digits) = true) as Hm.
  { apply version_marker_spec. exists digits. auto. }
  induction prefix as [| c p IH].
  - simpl append. unfold strip_version. now rewrite Hm.
  - assert (all_digits (p ++ String "v" digits) = false) as Hp.
    { clear. induction p as [| a p IHp]; simpl.
      - reflexivity.
      - rewrite IHp. apply andb_false_r. }
    simpl. rewrite Hp, andb_false_r, IH. reflexivity.
Qed.

Lemma strip_version_no_marker (s : string) :
  (forall prefix, ~ has_version_marker s prefix) -> strip_version s = s.
Proof.
  induction s as [| c r IH]; intros H; [reflexivity |].
  assert (version_marker (String c r) = false) as Hm.
  { destruct (version_marker (String c r)) eqn:E; [| reflexivity].
    apply version_marker_spec in E. now apply H in E. }
  change (strip_version (String c r))
    with (if version_marker (String c r) then EmptyString
          else String c (strip_version r)).
  rewrite Hm, IH; [reflexivity |].
  intros prefix (d & -> & Hne & Hd).
  apply (H (String c prefix)). exists d. auto.
Qed.

(** ** Sub-measures and the forward pass *)

Section EngineProperties.

Variable Date_parse : string -> option Z.

#[local] Abbreviation computeDateSimilarity := (computeDateSimilarity Date_parse).
#[local] Abbreviation asDate := (asDate Date_parse).
#[local] Abbreviation validMeasures := (validMeasures Date_parse).
#[local] Abbreviation fusedConfidence := (fusedConfidence Date_parse).
#[local] Abbreviation matchLoop := (matchLoop Date_parse).
#[local] Abbreviation findCorrespondingPublication := (findCorrespondingPublication Date_parse).

Lemma fold_Math_max_unit (measures : list number) (a : R) :
  (0 <= a <= 1)%R ->
  Forall (fun x => exists r, x = Num r /\ (0 <= r <= 1)%R) measures ->
  exists r, fold_left Math_max measures (Num a) = Num r /\ (0 <= r <= 1)%R.
Proof.
  intros Ha H. revert a Ha.
  induction H as [| x rest (r & -> & Hr) _ IH]; intros a Ha; simpl.
  - eauto.
  - apply IH. unfold Rmax. destruct (Rle_dec a r); lra.
Qed.

Lemma computeTitleSimilarity_unit (target : HalPublication) (candidate : LocalPublication) :
  unit_or_NaN (computeTitleSimilarity target candidate).
Proof.
  unfold computeTitleSimilarity.
  destruct (title_s target) as [[h | hs] |], (title candidate) as [c |];
    try exact I.
  - destruct (h =? "") eqn:Eh; [exact I |].
    destruct (c =? "") eqn:Ec; [exact I |]. simpl.
    apply String.eqb_neq in Eh.
    destruct (stringSimilarity_range h c (or_introl Eh)) as (r & -> & Hr).
    exact Hr.
  - destruct (c =? "") eqn:Ec; [exact I |]. simpl.
    apply String.eqb_neq in Ec.
    destruct (fold_Math_max_unit
                (map (fun langHalTitle => stringSimilarity langHalTitle c) hs) 0)
      as (r & -> & Hr).
    + lra.
    + apply Forall_map, Forall_forall. intros h _.
      apply stringSimilarity_range. now right.
    + exact Hr.
Qed.

Lemma computeAuthorsSimilarity_unit (target : HalPublication) (candidate : LocalPublication) :
  unit_or_NaN (computeAuthorsSimilarity target candidate).
Proof.
  unfold computeAuthorsSimilarity.
  destruct (authors_t target) as [a |], (authors candidate) as [b |];
    try exact I. simpl.
  destruct (join a =? "") eqn:Ea; [exact I |].
  destruct (join b =? "") eqn:Eb; [exact I |]. simpl.
  apply String.eqb_neq in Ea.
  destruct (stringSimilarity_range (join a) (join b) (or_introl Ea)) as (r & -> & Hr).
  exact Hr.
Qed.

Lemma days_between_nonneg (a b : Z) : (0 <= days_between a b)%R.
Proof.
  unfold days_between. pose proof (Rabs_pos (IZR b - IZR a)). lra.
Qed.

Lemma days_between_sym (a b : Z) : days_between a b = days_between b a.
Proof. unfold days_between. now rewrite Rabs_minus_sym. Qed.

Lemma computeDateSimilarity_Math_exp (target : HalPublication)
  (candidate : LocalPublication) (a b : Z) :
  asDate (publicationDate_s target) = Some (Some a) ->
  asDate (date candidate) = Some (Some b) ->
  computeDateSimilarity target candidate =
  Math_exp (Num (- days_between a b / 150)).
Proof.
  intros Ht Hc. unfold computeDateSimilarity.
  rewrite Ht, Hc. unfold timeValue, num_sub, Math_abs.
  rewrite num_div_nonzero by lra. unfold num_neg.
  rewrite num_div_nonzero by lra. reflexivity.
Qed.

Lemma computeDateSimilarity_value (target : HalPublication) (candidate : LocalPublication)
  (a b : Z) :
  asDate (publicationDate_s target) = Some (Some a) ->
  asDate (date candidate) = Some (Some b) ->
  (exp_underflow <= - days_between a b / 150)%R ->
  computeDateSimilarity target candidate = Num (exp (- days_between a b / 150)).
Proof.
  intros Ht Hc Hx.
  rewrite (computeDateSimilarity_Math_exp target candidate a b Ht Hc).
  now apply Math_exp_exact.
Qed.

Lemma computeDateSimilarity_invalid (target : HalPublication) (candidate : LocalPublication) :
  asDate (publicationDate_s target) = Some None \/
  asDate (date candidate) = Some None ->
  computeDateSimilarity target candidate = NaN.
Proof.
  intros H. unfold computeDateSimilarity.
  destruct (asDate (publicationDate_s target)) as [[a |] |],
           (asDate (date candidate)) as [[b |] |];
    try reflexivity; destruct H; discriminate.
Qed.

Lemma computeDateSimilarity_unit (target : HalPublication) (candidate : LocalPublication) :
  unit_or_NaN (computeDateSimilarity target candidate).
Proof.
  destruct (asDate (publicationDate_s target)) as [[a |] |] eqn:Et;
    [destruct (asDate (date candidate)) as [[b |] |] eqn:Ec | |].
  - rewrite (computeDateSimilarity_Math_exp _ _ a b Et Ec).
    pose proof (days_between_nonneg a b) as Hd.
    destruct (Math_exp_unit (- days_between a b / 150)) as (r & -> & Hr); [lra |].
    exact Hr.
  - rewrite computeDateSimilarity_invalid by now right. exact I.
  - unfold computeDateSimilarity. rewrite Et, Ec. exact I.
  - rewrite computeDateSimilarity_invalid by now left. exact I.
  - unfold computeDateSimilarity. rewrite Et. exact I.
Qed.

Lemma fusedConfidence_mean (target : HalPublication) (candidate : LocalPublication) :
  fusedConfidence target candidate =
  arithmetic_mean (computable_values
    [computeTitleSimilarity target candidate;
     computeAuthorsSimilarity target candidate;
     computeDateSimilarity target candidate;
     computeAuthorsSimilarity target candidate]).
Proof. apply mean_of_valid. Qed.

Lemma fusedConfidence_unit (target : HalPublication) (candidate : LocalPublication) :
  unit_or_NaN (fusedConfidence target candidate).
Proof.
  rewrite fusedConfidence_mean.
  apply arithmetic_mean_unit, computable_values_unit.
  repeat constructor;
    auto using computeTitleSimilarity_unit, computeAuthorsSimilarity_unit,
               computeDateSimilarity_unit.
Qed.

(** *** The loop, one candidate at a time *)

Lemma matchLoop_gate (target : HalPublication) (candidate : LocalPublication)
  (rest : list LocalPublication) (b : option LocalPublication) (bc : number) :
  exactMatch target candidate = true ->
  matchLoop target (candidate :: rest) b bc =
  {| best := Some candidate; confidence := Num 1 |}.
Proof.
  unfold exactMatch. intros H. simpl.
  destruct (haveSameHalID target candidate); [reflexivity |].
  simpl in H. now rewrite H.
Qed.

Lemma matchLoop_fused (target : HalPublication) (candidate : LocalPublication)
  (rest : list LocalPublication) (b : option LocalPublication) (bc : number) :
  exactMatch target candidate = false ->
  matchLoop target (candidate :: rest) b bc =
  if num_gt (fusedConfidence target candidate) bc
  then matchLoop target rest (Some candidate) (fusedConfidence target candidate)
  else matchLoop target rest b bc.
Proof.
  unfold exactMatch. intros H. apply orb_false_iff in H as [H1 H2].
  simpl. now rewrite H1, H2.
Qed.

Lemma matchLoop_first_gate (target : HalPublication) (pre : list LocalPublication)
  (candidate : LocalPublication) (suf : list LocalPublication)
  (b : option LocalPublication) (bc : number) :
  (forall p, In p pre -> exactMatch target p = false) ->
  exactMatch target candidate = true ->
  matchLoop target (pre ++ candidate :: suf) b bc =
  {| best := Some candidate; confidence := Num 1 |}.
Proof.
  intros Hpre Hc. revert b bc.
  induction pre as [| p pre IH]; intros b bc.
  - now apply matchLoop_gate.
  - change ((p :: pre) ++ candidate :: suf) with (p :: (pre ++ candidate :: suf)).
    rewrite matchLoop_fused by (apply Hpre; now left).
    destruct (num_gt _ _); apply IH; intros q Hq; apply Hpre; now right.
Qed.

Lemma first_exact_match (target : HalPublication) (candidates : list LocalPublication) :
  (exists c, In c candidates /\ exactMatch target c = true) ->
  exists pre c suf,
    candidates = pre ++ c :: suf /\
    (forall p, In p pre -> exactMatch target p = false) /\
    exactMatch target c = true.
Proof.
  induction candidates as [| x rest IH]; intros (c & Hin & Hc).
  - destruct Hin.
  - destruct (exactMatch target x) eqn:Ex.
    + exists [], x, rest. repeat split; [intros p [] | assumption].
    + destruct IH as (pre & c' & suf & -> & Hpre & Hc').
      { destruct Hin as [-> | Hin]; [congruence | eauto]. }
      exists (x :: pre), c', suf. repeat split; [| assumption].
      intros p [<- | Hp]; auto.
Qed.

(** When no candidate fires the gate, the loop either leaves the running
    pair as it found it, no confidence being greater, or ends on the first
    candidate that reaches the greatest confidence. *)
Lemma matchLoop_no_gate (target : HalPublication) (candidates : list LocalPublication) :
  (forall c, In c candidates -> exactMatch target c = false) ->
  forall (b : option LocalPublication) (r : R),
    (matchLoop target candidates b (Num r) = {| best := b; confidence := Num r |} /\
     forall c, In c candidates -> not_above (fusedConfidence target c) r)
    \/
    (exists pre w suf r',
        candidates = pre ++ w :: suf /\
        fusedConfidence target w = Num r' /\ (r < r')%R /\
        matchLoop target candidates b (Num r) =
          {| best := Some w; confidence := Num r' |} /\
        (forall p, In p pre -> strictly_below (fusedConfidence target p) r') /\
        (forall s, In s suf -> not_above (fusedConfidence target s) r')).
Proof.
  induction candidates as [| x rest IH]; intros Hgate b r.
  - left. split; [reflexivity | intros c []].
  - assert (forall c, In c rest -> exactMatch target c = false) as Hrest
        by (intros c Hc; apply Hgate; now right).
    rewrite matchLoop_fused by (apply Hgate; now left).
    destruct (num_gt (fusedConfidence target x) (Num r)) eqn:E.
    + apply num_gt_true in E as (a & r0 & Ex & [= <-] & Hlt).
      rewrite Ex.
      destruct (IH Hrest (Some x) a)
        as [[Hres Hall] | (pre & w & suf & r' & -> & Hw & Hlt' & Hres & Hpre & Hsuf)].
      * right. exists [], x, rest, a. repeat split; auto. intros p [].
      * right. exists (x :: pre), w, suf, r'. repeat split; auto; try lra.
        intros p [<- | Hp]; [rewrite Ex; simpl; lra | auto].
    + apply num_gt_false in E.
      destruct (IH Hrest b r)
        as [[Hres Hall] | (pre & w & suf & r' & -> & Hw & Hlt' & Hres & Hpre & Hsuf)].
      * left. split; [assumption |]. intros c [<- | Hc]; auto.
      * right. exists (x :: pre), w, suf, r'. repeat split; auto.
        intros p [<- | Hp]; [| auto].
        destruct (fusedConfidence target x); simpl in *; [exact I | lra].
Qed.

(** The running pair keeps its shape: a confidence in [[0,1]] that is 0
    exactly as long as no candidate has been kept. *)
Lemma matchLoop_invariant (target : HalPublication) (candidates : list LocalPublication) :
  forall (b : option LocalPublication) (r : R),
    (0 <= r <= 1)%R -> (b = None <-> r = 0%R) ->
    exists r',
      confidence (matchLoop target candidates b (Num r)) = Num r' /\
      (0 <= r' <= 1)%R /\
      (best (matchLoop target candidates b (Num r)) = None <-> r' = 0%R).
Proof.
  induction candidates as [| x rest IH]; intros b r Hr Hb.
  - exists r. auto.
  - destruct (exactMatch target x) eqn:Ex.
    + rewrite matchLoop_gate by assumption. exists 1%R. simpl.
      repeat split; try lra; intros; discriminate || lra.
    + rewrite matchLoop_fused by assumption.
      destruct (num_gt (fusedConfidence target x) (Num r)) eqn:E.
      * apply num_gt_true in E as (a & r0 & Ea & [= <-] & Hlt).
        rewrite Ea. apply IH.
        -- pose proof (fusedConfidence_unit target x) as Hu.
           rewrite Ea in Hu. simpl in Hu. lra.
        -- split; [discriminate | intros; lra].
      * now apply IH.
Qed.

Lemma matchLoop_none_above (target : HalPublication) (candidates : list LocalPublication)
  (b : option LocalPublication) (r : R) :
  (forall c, In c candidates ->
     exactMatch target c = false /\ not_above (fusedConfidence target c) r) ->
  matchLoop target candidates b (Num r) = {| best := b; confidence := Num r |}.
Proof.
  induction candidates as [| x rest IH]; intros H; [reflexivity |].
  destruct (H x) as [Hgate Hx]; [now left |].
  rewrite matchLoop_fused by assumption.
  apply num_gt_false in Hx. rewrite Hx.
  apply IH. intros c Hc. apply H. now right.
Qed.

(** *** Exact titles, exact authors *)

Lemma computeTitleSimilarity_exact (target : HalPublication) (candidate : LocalPublication)
  (s : string) :
  title_s target = Some (TitleArray [s]) -> title candidate = Some s -> s <> "" ->
  computeTitleSimilarity target candidate = Num 1.
Proof.
  intros Ht Hc Hs. unfold computeTitleSimilarity. rewrite Ht, Hc.
  pose proof Hs as Hs'. apply String.eqb_neq in Hs'. rewrite Hs'.
  cbv [negb map fold_left]. rewrite stringSimilarity_refl by assumption.
  unfold Math_max. f_equal. apply Rmax_right. lra.
Qed.

Lemma computeAuthorsSimilarity_exact (target : HalPublication) (candidate : LocalPublication)
  (l : list string) :
  authors_t target = Some l -> authors candidate = Some l -> join l <> "" ->
  computeAuthorsSimilarity target candidate = Num 1.
Proof.
  intros Ht Hc Hl. unfold computeAuthorsSimilarity. rewrite Ht, Hc.
  cbv [option_map truthy].
  pose proof Hl as Hl'. apply String.eqb_neq in Hl'. rewrite Hl'.
  cbv [negb andb]. now apply stringSimilarity_refl.
Qed.

(** *** The engine *)

(** C1, as the code has it: when no candidate fires an exact-identifier
    rule and the title, author and date measures are not computable for any
    candidate, the engine keeps no candidate and returns [best = null] with
    confidence 0, whether or not the sequence is empty: the confidence of
    such a candidate is [0 / 0], which is not greater than the running 0. *)
Theorem no_evidence_returns_null (target : HalPublication)
  (candidates : list LocalPublication)
  (H : forall c, In c candidates ->
         exactMatch target c = false /\
         computeTitleSimilarity target c = NaN /\
         computeAuthorsSimilarity target c = NaN /\
         computeDateSimilarity target c = NaN) :
  findCorrespondingPublication target candidates =
  {| best := None; confidence := Num 0 |}.
Proof.
  destruct (matchLoop_no_gate target candidates (fun c Hc => proj1 (H c Hc)) None 0)
    as [[Hres _] | (pre & w & suf & r' & -> & Hw & _)].
  - exact Hres.
  - exfalso. rewrite fusedConfidence_mean in Hw.
    destruct (H w) as (_ & Ht & Ha & Hd); [apply in_elt |].
    rewrite Ht, Ha, Hd in Hw. discriminate.
Qed.

(** C2, as the code has it: the confidence of the result is a number in
    [[0,1]]; [best] is null if and only if the confidence is 0; if a
    candidate fires an exact-identifier rule the confidence is exactly 1;
    and an empty candidate sequence gives a null [best] (a sequence that is
    not empty may give one as well). *)
Theorem match_result_invariant (target : HalPublication)
  (candidates : list LocalPublication) :
  exists r,
    confidence (findCorrespondingPublication target candidates) = Num r /\
    (0 <= r <= 1)%R /\
    (best (findCorrespondingPublication target candidates) = None <-> r = 0%R) /\
    ((exists c, In c candidates /\ exactMatch target c = true) -> r = 1%R) /\
    (candidates = [] -> best (findCorrespondingPublication target candidates) = None).
Proof.
  destruct (matchLoop_invariant target candidates None 0) as (r & Hc & Hr & Hb);
    [lra | tauto |].
  exists r. repeat split; try tauto; try lra.
  - intros Hex. apply first_exact_match in Hex as (pre & c & suf & -> & Hpre & Hgate).
    unfold findCorrespondingPublication in Hc.
    rewrite (matchLoop_first_gate target pre c suf None (Num 0) Hpre Hgate) in Hc.
    simpl in Hc. congruence.
  - intros ->. reflexivity.
Qed.

(** C3: if some candidate satisfies an exact-identifier rule (its
    identifier and the target's, both stripped of a trailing [v] and digits,
    are equal and not empty; or its alternate identifier is present and
    equal to the target's), the engine returns the first such candidate with
    confidence exactly 1, whatever the other fields are. *)
Theorem exact_identifier_wins (target : HalPublication)
  (candidates : list LocalPublication)
  (H : exists c, In c candidates /\ exact_identifier_rule target c) :
  exists pre c suf,
    candidates = pre ++ c :: suf /\
    (forall p, In p pre -> ~ exact_identifier_rule target p) /\
    exact_identifier_rule target c /\
    findCorrespondingPublication target candidates =
    {| best := Some c; confidence := Num 1 |}.
Proof.
  destruct (first_exact_match target candidates) as (pre & c & suf & -> & Hpre & Hc).
  { destruct H as (c & Hin & Hc). exists c. now rewrite exactMatch_iff. }
  exists pre, c, suf. repeat split.
  - intros p Hp. now apply exactMatch_false, Hpre.
  - now apply exactMatch_iff.
  - now apply matchLoop_first_gate.
Qed.

(** C4: for a candidate that fires no exact-identifier rule, the confidence
    the engine gives it is the arithmetic mean of the computable values
    among title, author, date and author similarity, the author similarity
    counted twice; with an exact title, exact authors and dates five days
    apart this is [(1 + 1 + 1 + exp (-5/150)) / 4], about 0.992. *)
Theorem fused_confidence_is_mean (target : HalPublication)
  (candidate : LocalPublication)
  (Hgate : exactMatch target candidate = false) :
  let mean :=
    arithmetic_mean (computable_values
      [computeTitleSimilarity target candidate;
       computeAuthorsSimilarity target candidate;
       computeDateSimilarity target candidate;
       computeAuthorsSimilarity target candidate]) in
  fusedConfidence target candidate = mean /\
  (forall rest b bc,
      matchLoop target (candidate :: rest) b bc =
      if num_gt mean bc then matchLoop target rest (Some candidate) mean
      else matchLoop target rest b bc) /\
  (computeTitleSimilarity target candidate = Num 1 ->
   computeAuthorsSimilarity target candidate = Num 1 ->
   computeDateSimilarity target candidate = Num (exp (- (5 / 150))) ->
   mean = Num ((1 + 1 + 1 + exp (- (5 / 150))) / 4) /\
   (0.991 < (1 + 1 + 1 + exp (- (5 / 150))) / 4 < 0.993)%R).
Proof.
  intros mean. split; [apply fusedConfidence_mean |]. split.
  - intros rest b bc. rewrite matchLoop_fused by assumption.
    now rewrite fusedConfidence_mean.
  - intros Ht Ha Hd. subst mean. rewrite Ht, Ha, Hd. split.
    + unfold arithmetic_mean, Rsum. simpl. f_equal. lra.
    + pose proof (exp_ineq1_le (- (5 / 150))) as Hlow.
      pose proof (exp_ineq1_le (5 / 150)) as Hup.
      rewrite exp_Ropp.
      rewrite exp_Ropp in Hlow.
      set (e := exp (5 / 150)) in *.
      assert (/ e <= / (1 + 5 / 150))%R as Hinv
          by (apply Rinv_le_contravar; lra).
      assert (/ (1 + 5 / 150) = 30 / 31)%R as Hval by (field; lra).
      lra.
Qed.

(** *** The forward pass for any confidence *)









(** C7, as the code has it: when both dates are present and parseable, the
    date similarity is [exp (- |difference in days| / 150)] as long as
    [Math.exp] does not underflow (a difference up to about 111770 days),
    and 0 beyond.  It is the same when the two dates change sides, it is
    exactly 1 when the dates are identical, and a greater absolute
    difference in days never gives a greater similarity; it gives a
    strictly smaller one as long as the similarity of the smaller
    difference is a normal double (a difference up to about 106259 days;
    closer to the underflow the doubles are too coarse to tell
    neighbouring differences apart). *)
Theorem date_similarity_decay (target : HalPublication) (candidate : LocalPublication)
  (a b : Z)
  (Ht : asDate (publicationDate_s target) = Some (Some a))
  (Hc : asDate (date candidate) = Some (Some b)) :
  ((exp_underflow <= - days_between a b / 150)%R ->
   computeDateSimilarity target candidate = Num (exp (- days_between a b / 150))) /\
  ((- days_between a b / 150 < exp_underflow)%R ->
   computeDateSimilarity target candidate = Num 0) /\
  (forall target' candidate',
      asDate (publicationDate_s target') = Some (Some b) ->
      asDate (date candidate') = Some (Some a) ->
      computeDateSimilarity target' candidate' =
      computeDateSimilarity target candidate) /\
  (a = b -> computeDateSimilarity target candidate = Num 1) /\
  (forall target' candidate' a' b',
      asDate (publicationDate_s target') = Some (Some a') ->
      asDate (date candidate') = Some (Some b') ->
      (days_between a b < days_between a' b')%R ->
      exists r r',
        computeDateSimilarity target candidate = Num r /\
        computeDateSimilarity target' candidate' = Num r' /\
        (r' <= r)%R /\
        ((exp_normal <= - days_between a b / 150)%R -> (r' < r)%R)).
Proof.
  rewrite (computeDateSimilarity_Math_exp target candidate a b Ht Hc).
  split; [apply Math_exp_exact |]. split; [apply Math_exp_underflow |].
  split; [| split].
  - intros t' c' Ht' Hc'.
    rewrite (computeDateSimilarity_Math_exp t' c' b a Ht' Hc').
    now rewrite days_between_sym.
  - intros <-. unfold days_between.
    replace (IZR a - IZR a)%R with 0%R by lra. rewrite Rabs_R0.
    replace (- (0 / (1000 * 60 * 60 * 24)) / 150)%R with 0%R by (field; lra).
    pose proof exp_underflow_neg.
    rewrite Math_exp_exact by lra. now rewrite exp_0.
  - intros t' c' a' b' Ht' Hc' Hlt.
    rewrite (computeDateSimilarity_Math_exp t' c' a' b' Ht' Hc').
    pose proof exp_underflow_neg as Hneg.
    set (x := (- days_between a b / 150)%R).
    set (x' := (- days_between a' b' / 150)%R).
    assert (x' < x)%R as Hx by (unfold x, x'; lra).
    pose proof (exp_increasing x' x Hx) as Hexp.
    pose proof (exp_pos x) as Hpos. pose proof (exp_pos x') as Hpos'.
    unfold Math_exp.
    destruct (Rlt_dec x exp_underflow), (Rlt_dec x' exp_underflow);
      do 2 eexists; (split; [reflexivity |]); (split; [reflexivity |]);
      split; try lra; intros Hn; lra.
Qed.

Lemma asDate_unparseable (d : option date_value) (s : string) :
  d = Some (DateString s) -> Date_parse s = None ->
  asDate d = None \/ asDate d = Some None.
Proof.
  intros -> Hs. simpl. destruct (s =? ""); [now left | right; now rewrite Hs].
Qed.

(** C8: a date-like string that cannot be parsed, on either side, raises
    nothing: the date measure is [NaN] (not computable), it is left out of
    the valid measures, and the fused confidence is the mean of the
    computable values among title, author and author similarity. *)
Theorem malformed_date_is_skipped (target : HalPublication) (candidate : LocalPublication)
  (H : (exists s, publicationDate_s target = Some (DateString s) /\ Date_parse s = None) \/
       (exists s, date candidate = Some (DateString s) /\ Date_parse s = None)) :
  computeDateSimilarity target candidate = NaN /\
  validMeasures target candidate =
    filter (fun measure => negb (isNaN measure))
      [computeTitleSimilarity target candidate;
       computeAuthorsSimilarity target candidate;
       computeAuthorsSimilarity target candidate] /\
  fusedConfidence target candidate =
    arithmetic_mean (computable_values
      [computeTitleSimilarity target candidate;
       computeAuthorsSimilarity target candidate;
       computeAuthorsSimilarity target candidate]).
Proof.
  assert (computeDateSimilarity target candidate = NaN) as Hd.
  { unfold computeDateSimilarity.
    destruct H as [(s & Hf & Hs) | (s & Hf & Hs)];
      destruct (asDate_unparseable _ s Hf Hs) as [E | E]; rewrite E.
    - reflexivity.
    - now destruct (asDate (date candidate)) as [[b |] |].
    - now destruct (asDate (publicationDate_s target)).
    - now destruct (asDate (publicationDate_s target)) as [[a |] |]. }
  split; [exact Hd |]. split.
  - unfold validMeasures. rewrite Hd. simpl.
    destruct (computeTitleSimilarity target candidate),
             (computeAuthorsSimilarity target candidate); reflexivity.
  - rewrite fusedConfidence_mean, Hd.
    destruct (computeTitleSimilarity target candidate),
             (computeAuthorsSimilarity target candidate); reflexivity.
Qed.

(** C9: when the alternate identifier of the target and that of a candidate
    are both the empty string, the alternate-identifier rule fires, and the
    engine returns that candidate with confidence 1 (it is reached as soon
    as no candidate before it fires a rule). *)
Theorem empty_alternate_identifiers_match (target : HalPublication)
  (candidate : LocalPublication)
  (Ht : doiId_s target = Some "") (Hc : doi candidate = Some "") :
  haveSameDOI target candidate = true /\
  forall pre suf,
    (forall p, In p pre -> exactMatch target p = false) ->
    findCorrespondingPublication target (pre ++ candidate :: suf) =
    {| best := Some candidate; confidence := Num 1 |}.
Proof.
  assert (haveSameDOI target candidate = true) as Hdoi
      by (unfold haveSameDOI; now rewrite Ht, Hc).
  split; [exact Hdoi |].
  intros pre suf Hpre. apply matchLoop_first_gate; [assumption |].
  unfold exactMatch. rewrite Hdoi. apply orb_true_r.
Qed.

(** C10: when the titles of the target are an empty array and the candidate
    has a title, the title measure is 0 and not [NaN]; this 0 is one of the
    valid measures, so the fused confidence is the sum of the other
    computable values divided by their count plus one, which is less than
    their mean whenever that sum is positive. *)
Theorem empty_title_array_counts_as_zero (target : HalPublication)
  (candidate : LocalPublication) (s : string)
  (Ht : title_s target = Some (TitleArray []))
  (Hc : title candidate = Some s) (Hs : s <> "") :
  let others :=
    computable_values
      [computeAuthorsSimilarity target candidate;
       computeDateSimilarity target candidate;
       computeAuthorsSimilarity target candidate] in
  computeTitleSimilarity target candidate = Num 0 /\
  validMeasures target candidate =
    Num 0 :: filter (fun measure => negb (isNaN measure))
               [computeAuthorsSimilarity target candidate;
                computeDateSimilarity target candidate;
                computeAuthorsSimilarity target candidate] /\
  fusedConfidence target candidate =
    Num (Rsum others / INR (S (List.length others))) /\
  ((0 < Rsum others)%R ->
   exists m, arithmetic_mean others = Num m /\
             (Rsum others / INR (S (List.length others)) < m)%R).
Proof.
  intros others.
  assert (computeTitleSimilarity target candidate = Num 0) as Htitle.
  { unfold computeTitleSimilarity. rewrite Ht, Hc.
    apply String.eqb_neq in Hs. now rewrite Hs. }
  split; [exact Htitle |]. split; [| split].
  - unfold validMeasures. now rewrite Htitle.
  - rewrite fusedConfidence_mean, Htitle.
    change (computable_values (Num 0 :: ?l)) with (0%R :: computable_values l).
    fold others. unfold arithmetic_mean. f_equal.
    change (Rsum (0%R :: others)) with (0 + Rsum others)%R.
    simpl List.length. f_equal. lra.
  - intros Hpos. destruct others as [| v rest] eqn:E.
    + simpl in Hpos. lra.
    + eexists. split; [reflexivity |].
      assert (0 < INR (List.length (v :: rest)))%R as Hn
          by (apply lt_0_INR; simpl; lia).
      rewrite S_INR. set (n := INR (List.length (v :: rest))) in *. unfold Rdiv.
      apply Rmult_lt_compat_l; [assumption |].
      apply Rinv_lt_contravar; [nra | lra].
Qed.

End EngineProperties.

(** ** The string-similarity primitive *)

(** C6: the similarity of two strings is [1 - levenshtein / max length];
    it takes the same value when the strings change places, it is exactly
    1 when they are equal, and it lies in [[0,1]].  The strings are those
    of the primitive's contract, of which one at least is not empty: its
    two callers pass it truthy strings, or any string against a truthy
    one. *)
Theorem stringSimilarity_spec (a b : string) (H : a <> "" \/ b <> "") :
  stringSimilarity a b =
    Num (1 - INR (levenshtein a b) / INR (Nat.max (String.length a) (String.length b))) /\
  stringSimilarity a b = stringSimilarity b a /\
  (a = b -> stringSimilarity a b = Num 1) /\
  exists r, stringSimilarity a b = Num r /\ (0 <= r <= 1)%R.
Proof.
  split; [now apply stringSimilarity_value |].
  split; [apply stringSimilarity_sym |].
  split; [| now apply stringSimilarity_range].
  intros <-. apply stringSimilarity_refl. tauto.
Qed.

(** ** Concrete runs *)

Lemma stringSimilarity_empty : stringSimilarity "" "" = NaN.
Proof.
  change (stringSimilarity "" "") with (num_sub (Num 1) (num_div (Num 0) (Num 0))).
  now rewrite num_div_zero_zero.
Qed.

Lemma stringSimilarity_witness :
  ("kitten" <> "" \/ "sitting" <> "") /\
  stringSimilarity "kitten" "sitting" = stringSimilarity "sitting" "kitten" /\
  exists r, stringSimilarity "kitten" "sitting" = Num r /\ (0 <= r <= 1)%R.
Proof.
  assert ("kitten" <> "" \/ "sitting" <> "") as H by (left; discriminate).
  split; [exact H |].
  destruct (stringSimilarity_spec "kitten" "sitting" H) as (_ & Hsym & _ & Hrange).
  split; [exact Hsym | exact Hrange].
Defined.

Lemma scenario3_not_computable (c : LocalPublication) :
  In c [scenario3_candidate] ->
  exactMatch scenario3_target c = false /\
  computeTitleSimilarity scenario3_target c = NaN /\
  computeAuthorsSimilarity scenario3_target c = NaN /\
  computeDateSimilarity iso_date_parse scenario3_target c = NaN.
Proof.
  intros [<- | []]. repeat split; reflexivity.
Qed.

Lemma no_evidence_witness :
  (forall c, In c [scenario3_candidate] ->
     exactMatch scenario3_target c = false /\
     computeTitleSimilarity scenario3_target c = NaN /\
     computeAuthorsSimilarity scenario3_target c = NaN /\
     computeDateSimilarity iso_date_parse scenario3_target c = NaN) /\
  findCorrespondingPublication iso_date_parse scenario3_target [scenario3_candidate] =
  {| best := None; confidence := Num 0 |}.
Proof.
  split; [exact scenario3_not_computable |].
  exact (no_evidence_returns_null iso_date_parse scenario3_target
           [scenario3_candidate] scenario3_not_computable).
Defined.

Lemma scenario3_run :
  findCorrespondingPublication iso_date_parse scenario3_target [scenario3_candidate] =
  {| best := None; confidence := Num 0 |}.
Proof.
  apply matchLoop_none_above. intros c Hc.
  destruct (scenario3_not_computable c Hc) as (Hg & Ht & Ha & Hd).
  split; [exact Hg |].
  rewrite fusedConfidence_mean, Ht, Ha, Hd. exact I.
Qed.

Lemma no_evidence_counterexample :
  [scenario3_candidate] <> [] /\
  (forall c, In c [scenario3_candidate] ->
     exactMatch scenario3_target c = false /\
     computeTitleSimilarity scenario3_target c = NaN /\
     computeAuthorsSimilarity scenario3_target c = NaN /\
     computeDateSimilarity iso_date_parse scenario3_target c = NaN) /\
  findCorrespondingPublication iso_date_parse scenario3_target [scenario3_candidate] <>
  {| best := Some scenario3_candidate; confidence := Num 0 |}.
Proof.
  split; [discriminate |]. split; [exact scenario3_not_computable |].
  rewrite scenario3_run. discriminate.
Qed.

Lemma disjoint_titles_similarity :
  computeTitleSimilarity disjoint_target disjoint_candidate = Num 0.
Proof.
  unfold computeTitleSimilarity.
  change (title_s disjoint_target) with (Some (TitleString "abc")).
  change (title disjoint_candidate) with (Some "xyz").
  change (stringSimilarity "abc" "xyz" = Num 0).
  rewrite stringSimilarity_value by (left; discriminate).
  replace (levenshtein "abc" "xyz") with 3 by (vm_compute; reflexivity).
  change (Nat.max (String.length "abc") (String.length "xyz")) with 3.
  f_equal. simpl INR. field.
Qed.

Lemma disjoint_titles_run :
  findCorrespondingPublication iso_date_parse disjoint_target [disjoint_candidate] =
  {| best := None; confidence := Num 0 |}.
Proof.
  apply matchLoop_none_above. intros c [<- | []].
  split; [reflexivity |].
  rewrite fusedConfidence_mean, disjoint_titles_similarity.
  change (computeAuthorsSimilarity disjoint_target disjoint_candidate) with NaN.
  change (computeDateSimilarity iso_date_parse disjoint_target disjoint_candidate)
    with NaN.
  unfold computable_values, arithmetic_mean, Rsum, not_above. simpl. lra.
Qed.

Lemma null_best_counterexample :
  ~ (best (findCorrespondingPublication iso_date_parse disjoint_target
             [disjoint_candidate]) = None <->
     confidence (findCorrespondingPublication iso_date_parse disjoint_target
                   [disjoint_candidate]) = Num 0 /\
     [disjoint_candidate] = []).
Proof.
  rewrite disjoint_titles_run. simpl. intros [H _].
  destruct (H eq_refl) as [_ E]. discriminate.
Qed.

Lemma match_result_witness :
  exists r,
    confidence (findCorrespondingPublication iso_date_parse disjoint_target
                  [disjoint_candidate]) = Num r /\
    (0 <= r <= 1)%R /\
    (best (findCorrespondingPublication iso_date_parse disjoint_target
             [disjoint_candidate]) = None <-> r = 0%R).
Proof.
  destruct (match_result_invariant iso_date_parse disjoint_target [disjoint_candidate])
    as (r & Hc & Hr & Hb & _).
  exists r. auto.
Defined.

Lemma scenario1_rule :
  exists c, In c [bare_candidate; scenario1_candidate] /\
            exact_identifier_rule scenario1_target c.
Proof.
  exists scenario1_candidate. split; [right; now left |].
  left. exists "hal-000111v2", "hal-000111".
  repeat split. vm_compute. discriminate.
Qed.

Lemma exact_identifier_witness :
  (exists c, In c [bare_candidate; scenario1_candidate] /\
             exact_identifier_rule scenario1_target c) /\
  exists pre c suf,
    [bare_candidate; scenario1_candidate] = pre ++ c :: suf /\
    (forall p, In p pre -> ~ exact_identifier_rule scenario1_target p) /\
    exact_identifier_rule scenario1_target c /\
    findCorrespondingPublication iso_date_parse scenario1_target
      [bare_candidate; scenario1_candidate] =
    {| best := Some c; confidence := Num 1 |}.
Proof.
  split; [exact scenario1_rule |].
  exact (exact_identifier_wins iso_date_parse scenario1_target
           [bare_candidate; scenario1_candidate] scenario1_rule).
Defined.

Lemma scenario2_dates :
  asDate iso_date_parse (publicationDate_s scenario2_target) =
    Some (Some 1592179200000%Z) /\
  asDate iso_date_parse (date scenario2_candidate) = Some (Some 1592611200000%Z).
Proof. split; reflexivity. Qed.

Lemma scenario2_days : days_between 1592179200000 1592611200000 = 5%R.
Proof.
  unfold days_between.
  rewrite Rabs_pos_eq by lra. field.
Qed.

Lemma scenario2_date_similarity :
  computeDateSimilarity iso_date_parse scenario2_target scenario2_candidate =
  Num (exp (- (5 / 150))).
Proof.
  destruct scenario2_dates as [Ht Hc].
  rewrite (computeDateSimilarity_value iso_date_parse _ _ _ _ Ht Hc);
    rewrite scenario2_days.
  - f_equal. f_equal. lra.
  - pose proof exp_underflow_neg. lra.
Qed.

Lemma fused_confidence_witness :
  exactMatch scenario2_target scenario2_candidate = false /\
  fusedConfidence iso_date_parse scenario2_target scenario2_candidate =
    Num ((1 + 1 + 1 + exp (- (5 / 150))) / 4) /\
  (0.991 < (1 + 1 + 1 + exp (- (5 / 150))) / 4 < 0.993)%R.
Proof.
  assert (exactMatch scenario2_target scenario2_candidate = false) as Hgate
      by reflexivity.
  split; [exact Hgate |].
  destruct (fused_confidence_is_mean iso_date_parse scenario2_target
              scenario2_candidate Hgate) as (Hf & _ & Hs).
  rewrite Hf. apply Hs.
  - apply (computeTitleSimilarity_exact _ _ "Deep Learning for X");
      [reflexivity | reflexivity | discriminate].
  - apply (computeAuthorsSimilarity_exact _ _ ["J Smith"]);
      [reflexivity | reflexivity | discriminate].
  - exact scenario2_date_similarity.
Defined.



Lemma scenario1_against_scenario2_dates :
  asDate iso_date_parse (publicationDate_s scenario1_target) =
    Some (Some 1614556800000%Z).
Proof. reflexivity. Qed.

Lemma later_days :
  (days_between 1592179200000 1592611200000 <
   days_between 1614556800000 1592611200000)%R.
Proof.
  rewrite scenario2_days. unfold days_between.
  rewrite Rabs_left by lra. lra.
Qed.

Lemma date_similarity_witness :
  asDate iso_date_parse (publicationDate_s scenario2_target) =
    Some (Some 1592179200000%Z) /\
  asDate iso_date_parse (date scenario2_candidate) = Some (Some 1592611200000%Z) /\
  computeDateSimilarity iso_date_parse scenario2_target scenario2_candidate =
    Num (exp (- days_between 1592179200000 1592611200000 / 150)) /\
  exists r r',
    computeDateSimilarity iso_date_parse scenario2_target scenario2_candidate = Num r /\
    computeDateSimilarity iso_date_parse scenario1_target scenario2_candidate = Num r' /\
    (r' < r)%R.
Proof.
  destruct scenario2_dates as [Ht Hc].
  split; [exact Ht |]. split; [exact Hc |].
  assert (exp_normal <= - days_between 1592179200000 1592611200000 / 150)%R as Hn
      by (rewrite scenario2_days; pose proof exp_underflow_neg; lra).
  destruct (date_similarity_decay iso_date_parse scenario2_target
              scenario2_candidate _ _ Ht Hc) as (Hv & _ & _ & _ & Hdec).
  split.
  - apply Hv. pose proof exp_underflow_neg. lra.
  - destruct (Hdec scenario1_target scenario2_candidate _ _
                scenario1_against_scenario2_dates Hc later_days)
      as (r & r' & Hr & Hr' & _ & Hlt).
    exists r, r'. auto.
Defined.

Lemma year2020_dates :
  asDate iso_date_parse (publicationDate_s year2020_target) =
    Some (Some 1577836800000%Z) /\
  asDate iso_date_parse (date year1700_candidate) = Some (Some (-8520336000000)%Z) /\
  asDate iso_date_parse (date year1600_candidate) = Some (Some (-11676096000000)%Z).
Proof. repeat split. Qed.

Lemma year1700_days : days_between 1577836800000 (-8520336000000) = 116877%R.
Proof. unfold days_between. rewrite Rabs_left by lra. field. Qed.

Lemma year1600_days : days_between 1577836800000 (-11676096000000) = 153402%R.
Proof. unfold days_between. rewrite Rabs_left by lra. field. Qed.

Lemma date_similarity_counterexample :
  (days_between 1577836800000 (-8520336000000) <
   days_between 1577836800000 (-11676096000000))%R /\
  computeDateSimilarity iso_date_parse year2020_target year1700_candidate = Num 0 /\
  computeDateSimilarity iso_date_parse year2020_target year1600_candidate = Num 0 /\
  ~ (exists r r',
        computeDateSimilarity iso_date_parse year2020_target year1700_candidate = Num r /\
        computeDateSimilarity iso_date_parse year2020_target year1600_candidate = Num r' /\
        (r' < r)%R).
Proof.
  destruct year2020_dates as (Ht & H17 & H16).
  assert (computeDateSimilarity iso_date_parse year2020_target year1700_candidate = Num 0)
    as E17.
  { rewrite (computeDateSimilarity_Math_exp iso_date_parse _ _ _ _ Ht H17), year1700_days.
    apply Math_exp_underflow. unfold exp_underflow. pose proof ln_2_lt. lra. }
  assert (computeDateSimilarity iso_date_parse year2020_target year1600_candidate = Num 0)
    as E16.
  { rewrite (computeDateSimilarity_Math_exp iso_date_parse _ _ _ _ Ht H16), year1600_days.
    apply Math_exp_underflow. unfold exp_underflow. pose proof ln_2_lt. lra. }
  split; [rewrite year1700_days, year1600_days; lra |].
  split; [exact E17 |]. split; [exact E16 |].
  rewrite E17, E16. intros (r & r' & [= <-] & [= <-] & Hlt). lra.
Qed.

Lemma malformed_date_witness :
  ((exists s, publicationDate_s malformed_date_target = Some (DateString s) /\
              iso_date_parse s = None) \/
   (exists s, date scenario2_candidate = Some (DateString s) /\
              iso_date_parse s = None)) /\
  computeDateSimilarity iso_date_parse malformed_date_target scenario2_candidate = NaN /\
  fusedConfidence iso_date_parse malformed_date_target scenario2_candidate =
    arithmetic_mean (computable_values
      [computeTitleSimilarity malformed_date_target scenario2_candidate;
       computeAuthorsSimilarity malformed_date_target scenario2_candidate;
       computeAuthorsSimilarity malformed_date_target scenario2_candidate]).
Proof.
  assert ((exists s, publicationDate_s malformed_date_target = Some (DateString s) /\
                     iso_date_parse s = None) \/
          (exists s, date scenario2_candidate = Some (DateString s) /\
                     iso_date_parse s = None)) as H.
  { left. exists "in press". split; reflexivity. }
  split; [exact H |].
  destruct (malformed_date_is_skipped iso_date_parse malformed_date_target
              scenario2_candidate H) as (Hd & _ & Hf).
  split; [exact Hd | exact Hf].
Defined.

Lemma empty_alternate_identifiers_witness :
  doiId_s blank_doi_target = Some "" /\ doi blank_doi_candidate = Some "" /\
  haveSameDOI blank_doi_target blank_doi_candidate = true /\
  findCorrespondingPublication iso_date_parse blank_doi_target
    ([bare_candidate] ++ blank_doi_candidate :: []) =
  {| best := Some blank_doi_candidate; confidence := Num 1 |}.
Proof.
  split; [reflexivity |]. split; [reflexivity |].
  destruct (empty_alternate_identifiers_match iso_date_parse blank_doi_target
              blank_doi_candidate eq_refl eq_refl) as [Hdoi Hrun].
  split; [exact Hdoi |].
  apply Hrun. intros p [<- | []]. reflexivity.
Defined.

Lemma empty_title_array_witness :
  title_s untitled_target = Some (TitleArray []) /\
  title scenario2_candidate = Some "Deep Learning for X" /\
  "Deep Learning for X" <> "" /\
  computeTitleSimilarity untitled_target scenario2_candidate = Num 0 /\
  validMeasures iso_date_parse untitled_target scenario2_candidate =
    Num 0 :: filter (fun measure => negb (isNaN measure))
               [computeAuthorsSimilarity untitled_target scenario2_candidate;
                computeDateSimilarity iso_date_parse untitled_target scenario2_candidate;
                computeAuthorsSimilarity untitled_target scenario2_candidate].
Proof.
  assert ("Deep Learning for X" <> "") as Hs by discriminate.
  split; [reflexivity |]. split; [reflexivity |]. split; [exact Hs |].
  destruct (empty_title_array_counts_as_zero iso_date_parse untitled_target
              scenario2_candidate "Deep Learning for X" eq_refl eq_refl Hs)
    as (Ht & Hv & _).
  split; [exact Ht | exact Hv].
Defined.

(** * Further properties of the matching engine *)

(** ** Identifiers and version markers *)

Lemma no_marker_in_empty (p : string) : ~ has_version_marker "" p.
Proof.
  intros (d & E & _). destruct p; discriminate.
Qed.

(** X1: [replace(/v\d+$/, '')] removes the version marker that ends the string,
    if there is one, and returns the string unchanged otherwise. *)
Theorem strip_version_spec (s : string) :
  (exists p, has_version_marker s p /\ strip_version s = p) \/
  ((forall p, ~ has_version_marker s p) /\ strip_version s = s).
Proof.
  induction s as [| c r IH].
  - right. split; [apply no_marker_in_empty | reflexivity].
  - destruct (version_marker (String c r)) eqn:Em.
    + left. exists "". split; [now apply version_marker_spec |].
      change (strip_version (String c r))
        with (if version_marker (String c r) then EmptyString
              else String c (strip_version r)).
      now rewrite Em.
    + change (strip_version (String c r))
        with (if version_marker (String c r) then EmptyString
              else String c (strip_version r)).
      rewrite Em.
      destruct IH as [(p & (d & -> & Hne & Hd) & Hs) | [Hno Hs]].
      * left. exists (String c p). split; [| now rewrite Hs].
        exists d. auto.
      * right. split; [| now rewrite Hs].
        intros [| c' p] (d & E & Hne & Hd).
        -- assert (version_marker (String c r) = true) as Ht
             by (apply version_marker_spec; exists d; auto).
           congruence.
        -- injection E as -> ->. apply (Hno p). exists d. auto.
Qed.

(** X2: two versions of one HAL identifier match, and so do a versioned
    identifier and the identifier without its version. *)
Theorem hal_versions_are_ignored (target : HalPublication) (candidate : LocalPublication)
  (p d1 : string)
  (Hp : p <> "") (H1 : d1 <> "") (Hd1 : all_digits d1 = true)
  (Ht : halId_s target = Some (p ++ String "v" d1)%string) :
  (forall d2, d2 <> "" -> all_digits d2 = true ->
     hal candidate = Some (p ++ String "v" d2)%string ->
     haveSameHalID target candidate = true) /\
  ((forall q, ~ has_version_marker p q) ->
   hal candidate = Some p -> haveSameHalID target candidate = true).
Proof.
  split.
  - intros d2 H2 Hd2 Hc. apply haveSameHalID_iff.
    exists (p ++ String "v" d1)%string, (p ++ String "v" d2)%string.
    rewrite !strip_version_marker by assumption. auto.
  - intros Hno Hc. apply haveSameHalID_iff.
    exists (p ++ String "v" d1)%string, p.
    rewrite strip_version_marker, strip_version_no_marker by assumption. auto.
Qed.

(** X3: the identifier rule needs an identifier: it fires for no candidate when
    the identifier of the target is absent, empty, or a version marker and
    nothing else, and for no target when the candidate has no identifier or
    an empty one. *)
Theorem haveSameHalID_needs_identifier (target : HalPublication)
  (candidate : LocalPublication)
  (H : halId_s target = None \/ halId_s target = Some "" \/
       (exists d, halId_s target = Some (String "v" d) /\ d <> "" /\
                  all_digits d = true) \/
       hal candidate = None \/ hal candidate = Some "") :
  haveSameHalID target candidate = false.
Proof.
  destruct (haveSameHalID target candidate) eqn:E; [| reflexivity].
  exfalso. apply haveSameHalID_iff in E as (x & y & Hx & Hy & Hne & Heq).
  destruct H as [H | [H | [(d & H & Hd & Hdig) | [H | H]]]];
    rewrite H in *; try discriminate.
  - injection Hx as <-. now rewrite Heq in Hne.
  - injection Hx as <-.
    pose proof (strip_version_marker "" d Hd Hdig) as Hs.
    simpl append in Hs. rewrite Hs in Heq. now rewrite Heq in Hne.
  - injection Hy as <-. now apply Hne.
Qed.

(** ** Edit distance and similarity *)

Lemma lev_zero_eq (s t : list ascii) : lev s t = 0 -> s = t.
Proof.
  revert t. induction s as [| a s IHs]; intros t H.
  - destruct t; [reflexivity | discriminate].
  - destruct t as [| b t]; [discriminate |].
    rewrite lev_cons_cons in H. unfold min3 in H.
    destruct (Ascii.eqb a b) eqn:E.
    + apply Ascii.eqb_eq in E. subst b. f_equal. apply IHs. lia.
    + lia.
Qed.

Lemma list_ascii_of_string_inj (a b : string) :
  list_ascii_of_string a = list_ascii_of_string b -> a = b.
Proof.
  intros H. rewrite <- (string_of_list_ascii_of_string a),
    <- (string_of_list_ascii_of_string b). now rewrite H.
Qed.

Lemma levenshtein_zero_eq (a b : string) : levenshtein a b = 0 -> a = b.
Proof. intros H. now apply list_ascii_of_string_inj, lev_zero_eq. Qed.

(** An edit distance is at least the difference of the lengths. *)
Lemma lev_length_gap (s t : list ascii) :
  List.length s <= lev s t + List.length t /\
  List.length t <= lev s t + List.length s.
Proof.
  revert t. induction s as [| a s IHs]; intros t.
  - simpl. lia.
  - induction t as [| b t IHt].
    + simpl. lia.
    + rewrite lev_cons_cons. unfold min3.
      pose proof (IHs (b :: t)) as H1. pose proof (IHs t) as H2.
      simpl List.length in *. lia.
Qed.

Lemma levenshtein_length_gap (a b : string) :
  Nat.max (String.length a) (String.length b) <=
  levenshtein a b + Nat.min (String.length a) (String.length b).
Proof.
  unfold levenshtein. rewrite <- !length_list_ascii_of_string.
  pose proof (lev_length_gap (list_ascii_of_string a) (list_ascii_of_string b)).
  lia.
Qed.

(** X4: two strings, not both empty, have similarity 1 only when they are the
    same string. *)
Theorem stringSimilarity_one_iff (a b : string) (H : a <> "" \/ b <> "") :
  stringSimilarity a b = Num 1 <-> a = b.
Proof.
  split.
  - rewrite stringSimilarity_value by assumption. intros [= E].
    destruct (max_length_pos a b H) as [n En]. rewrite En in E.
    assert (0 < INR (S n))%R as Hpos by (apply lt_0_INR; lia).
    assert (INR (levenshtein a b) = 0)%R as Hz.
    { set (d := INR (levenshtein a b)) in *. set (m := INR (S n)) in *.
      assert (d / m * m = d)%R as Hq by (field; lra).
      assert (d / m = 0)%R as Hq0 by lra.
      rewrite Hq0 in Hq. lra. }
    apply levenshtein_zero_eq.
    destruct (levenshtein a b) as [| k]; [reflexivity |].
    exfalso. assert (0 < INR (S k))%R by (apply lt_0_INR; lia). lra.
  - intros <-. apply stringSimilarity_refl. tauto.
Qed.

(** ** Sub-measures *)

Lemma fold_Math_max_spec (values : list R) (a : R) :
  exists m,
    fold_left Math_max (map Num values) (Num a) = Num m /\
    (a <= m)%R /\
    (forall v, In v values -> (v <= m)%R) /\
    (m = a \/ In m values).
Proof.
  revert a. induction values as [| v rest IH]; intros a.
  - exists a. simpl. repeat split; [lra | intros v [] | now left].
  - simpl. destruct (IH (Rmax a v)) as (m & Hm & Hle & Hall & Hin).
    exists m. split; [exact Hm |].
    pose proof (Rmax_l a v). pose proof (Rmax_r a v).
    repeat split.
    + lra.
    + intros w [<- | Hw]; [lra | auto].
    + destruct Hin as [-> | Hin]; [| now right; right].
      unfold Rmax. destruct (Rle_dec a v); [right; now left | now left].
Qed.

(** X6: against an array of titles, the title measure is the greatest of the
    similarities between the candidate's title and each language variant:
    no variant is more similar, and one of them (if there is any) is
    exactly that similar. *)
Theorem title_similarity_is_maximum (target : HalPublication)
  (candidate : LocalPublication) (hs : list string) (s : string)
  (Ht : title_s target = Some (TitleArray hs))
  (Hc : title candidate = Some s) (Hs : s <> "") :
  exists m,
    computeTitleSimilarity target candidate = Num m /\
    (forall h, In h hs ->
       exists r, stringSimilarity h s = Num r /\ (r <= m)%R) /\
    (hs <> [] -> exists h, In h hs /\ stringSimilarity h s = Num m).
Proof.
  unfold computeTitleSimilarity. rewrite Ht, Hc.
  pose proof Hs as Hs'. apply String.eqb_neq in Hs'. rewrite Hs'. cbv [negb].
  assert (exists values,
             map (fun langHalTitle => stringSimilarity langHalTitle s) hs =
             map Num values /\
             List.length values = List.length hs /\
             (forall v, In v values -> (0 <= v)%R) /\
             (forall h, In h hs -> exists r, stringSimilarity h s = Num r /\ In r values) /\
             (forall v, In v values -> exists h, In h hs /\ stringSimilarity h s = Num v))
    as (values & -> & Hlen & Hpos & Hfw & Hbw).
  { clear Ht. induction hs as [| h hs IH].
    - exists []. simpl. repeat split; try tauto; intros ? [].
    - destruct IH as (values & E & Hlen & Hpos & Hfw & Hbw).
      destruct (stringSimilarity_range h s (or_intror Hs)) as (r & Er & Hr).
      exists (r :: values). simpl. rewrite E, Er, Hlen. repeat split.
      + intros v [<- | Hv]; [lra | auto].
      + intros h' [<- | Hh]; [eauto |].
        destruct (Hfw h' Hh) as (r' & ? & ?). eauto.
      + intros v [<- | Hv]; [eauto |].
        destruct (Hbw v Hv) as (h' & ? & ?). eauto. }
  destruct (fold_Math_max_spec values 0) as (m & Hm & Hle & Hall & Hin).
  exists m. split; [exact Hm |]. split.
  - intros h Hh. destruct (Hfw h Hh) as (r & Er & Hr). eauto.
  - intros Hne. destruct Hin as [-> | Hin]; [| auto].
    destruct values as [| v rest].
    + destruct hs; [congruence | discriminate].
    + destruct (Hbw v (or_introl eq_refl)) as (h & Hh & Eh).
      exists h. split; [exact Hh |]. rewrite Eh. f_equal.
      pose proof (Hpos v (or_introl eq_refl)).
      pose proof (Hall v (or_introl eq_refl)). lra.
Qed.

(** X7: a target title given as a single non-empty string scores as the array
    holding that one string does; the empty string does not: as a string
    it makes the measure not computable, as the only element of an array
    it scores 0 against any title. *)
Theorem title_string_or_singleton (target target' : HalPublication)
  (candidate : LocalPublication) (h : string)
  (Ht : title_s target = Some (TitleString h))
  (Ht' : title_s target' = Some (TitleArray [h])) :
  (h <> "" ->
   computeTitleSimilarity target candidate = computeTitleSimilarity target' candidate) /\
  (h = "" ->
   computeTitleSimilarity target candidate = NaN /\
   forall s, title candidate = Some s -> s <> "" ->
             computeTitleSimilarity target' candidate = Num 0).
Proof.
  unfold computeTitleSimilarity. rewrite Ht, Ht'. split.
  - intros Hh. apply String.eqb_neq in Hh. rewrite Hh.
    destruct (title candidate) as [s |]; [| reflexivity].
    destruct (s =? "") eqn:Es; [reflexivity |]. cbv [negb andb map fold_left].
    apply String.eqb_neq in Es.
    destruct (stringSimilarity_range h s (or_intror Es)) as (r & -> & Hr).
    simpl. f_equal. symmetry. apply Rmax_right. lra.
  - intros ->. split.
    + now destruct (title candidate).
    + intros s -> Hs. pose proof Hs as Hs'.
      apply String.eqb_neq in Hs'. rewrite Hs'. cbv [negb map fold_left].
      rewrite stringSimilarity_value by now right.
      destruct (max_length_pos "" s (or_intror Hs)) as [n En].
      pose proof (levenshtein_length_gap "" s) as Hgap.
      pose proof (levenshtein_le_max "" s) as Hmax.
      rewrite En in *. change (String.length "") with 0 in *.
      assert (levenshtein "" s = S n) as -> by lia.
      assert (0 < INR (S n))%R as Hpos by (apply lt_0_INR; lia).
      unfold Math_max. f_equal.
      replace (1 - INR (S n) / INR (S n))%R with 0%R by (field; lra).
      apply Rmax_left. lra.
Qed.

Lemma title_fold_is_number (hs : list string) (s : string) :
  s <> "" ->
  exists m,
    fold_left Math_max
      (map (fun langHalTitle => stringSimilarity langHalTitle s) hs) (Num 0) = Num m.
Proof.
  intros Hs.
  destruct (fold_Math_max_unit
              (map (fun langHalTitle => stringSimilarity langHalTitle s) hs) 0)
    as (m & Hm & _).
  - lra.
  - apply Forall_map, Forall_forall. intros h _.
    apply stringSimilarity_range. now right.
  - eauto.
Qed.

Section MoreEngineProperties.

Variable Date_parse : string -> option Z.

#[local] Abbreviation computeDateSimilarity := (computeDateSimilarity Date_parse).
#[local] Abbreviation asDate := (asDate Date_parse).
#[local] Abbreviation fusedConfidence := (fusedConfidence Date_parse).
#[local] Abbreviation matchLoop := (matchLoop Date_parse).
#[local] Abbreviation findCorrespondingPublication := (findCorrespondingPublication Date_parse).

(** X8: each measure is a number exactly when both of its inputs are there:
    a truthy candidate title and a target title other than the empty
    string; two author lists that do not join to the empty string; two
    dates that are present and valid. *)
Theorem measures_computable_iff (target : HalPublication) (candidate : LocalPublication) :
  ((exists r, computeTitleSimilarity target candidate = Num r) <->
   truthy (title candidate) = true /\
   exists v, title_s target = Some v /\ v <> TitleString "") /\
  ((exists r, computeAuthorsSimilarity target candidate = Num r) <->
   exists a b, authors_t target = Some a /\ authors candidate = Some b /\
               join a <> "" /\ join b <> "") /\
  ((exists r, computeDateSimilarity target candidate = Num r) <->
   exists a b, asDate (publicationDate_s target) = Some (Some a) /\
               asDate (date candidate) = Some (Some b)).
Proof.
  split; [| split].
  - unfold computeTitleSimilarity.
    destruct (title_s target) as [[h | hs] |], (title candidate) as [s |]; simpl.
    + destruct (h =? "") eqn:Eh, (s =? "") eqn:Es; simpl;
        try apply String.eqb_eq in Eh; try apply String.eqb_neq in Es;
        try (split;
             [ intros (r & [=])
             | intros (Hs & v & [= <-] & Hv); subst; try discriminate; now elim Hv ]).
      apply String.eqb_neq in Eh. split.
      * intros _. split; [reflexivity |]. eexists. split; [reflexivity |].
        intros [= E]. contradiction.
      * intros _. destruct (stringSimilarity_range h s (or_introl Eh)) as (r & -> & _).
        eauto.
    + split; [intros (r & [=]) | intros ([=] & _)].
    + destruct (s =? "") eqn:Es; simpl.
      * split; [intros (r & [=]) | intros ([=] & _)].
      * apply String.eqb_neq in Es. split.
        -- intros _. split; [reflexivity |]. eexists. split; [reflexivity | discriminate].
        -- intros _.
           destruct (title_fold_is_number hs s Es) as (m & -> ). eauto.
    + split; [intros (r & [=]) | intros ([=] & _)].
    + split; [intros (r & [=]) | intros (_ & v & [=] & _)].
    + split; [intros (r & [=]) | intros ([=] & _)].
  - unfold computeAuthorsSimilarity.
    destruct (authors_t target) as [a |], (authors candidate) as [b |]; simpl;
      try (split; [intros (r & [=]) | intros (? & ? & H1 & H2 & _); discriminate]).
    destruct (join a =? "") eqn:Ea, (join b =? "") eqn:Eb; simpl;
      try apply String.eqb_eq in Ea; try apply String.eqb_eq in Eb;
      try (split;
           [ intros (r & [=])
           | intros (a' & b' & [= <-] & [= <-] & Ha & Hb); contradiction ]).
    apply String.eqb_neq in Ea. apply String.eqb_neq in Eb. split.
    + intros _. exists a, b. auto.
    + intros _.
      destruct (stringSimilarity_range (join a) (join b) (or_introl Ea)) as (r & -> & _).
      eauto.
  - split.
    + intros (r & Hr). unfold computeDateSimilarity in Hr.
      destruct (asDate (publicationDate_s target)) as [[a |] |];
        destruct (asDate (date candidate)) as [[b |] |]; try discriminate.
      eauto.
    + intros (a & b & Ha & Hb).
      rewrite (computeDateSimilarity_Math_exp Date_parse _ _ a b Ha Hb).
      unfold Math_exp. destruct (Rlt_dec _ _); eauto.
Qed.

(** ** The result of the engine *)

Lemma matchLoop_best_in (target : HalPublication) (candidates : list LocalPublication) :
  forall (b : option LocalPublication) (bc : number) (c : LocalPublication),
    best (matchLoop target candidates b bc) = Some c ->
    In c candidates \/ b = Some c.
Proof.
  induction candidates as [| x rest IH]; intros b bc c H.
  - now right.
  - destruct (exactMatch target x) eqn:Ex.
    + rewrite matchLoop_gate in H by assumption. injection H as <-. left. now left.
    + rewrite matchLoop_fused in H by assumption.
      destruct (num_gt _ _); apply IH in H as [H | H].
      * left. now right.
      * injection H as <-. left. now left.
      * left. now right.
      * now right.
Qed.

(** X9: the candidate returned is one of the candidates given. *)
Theorem best_is_a_candidate (target : HalPublication)
  (candidates : list LocalPublication) (c : LocalPublication)
  (H : best (findCorrespondingPublication target candidates) = Some c) :
  In c candidates.
Proof.
  apply matchLoop_best_in in H as [H | H]; [exact H | discriminate].
Qed.

Lemma gate_somewhere_or_nowhere (target : HalPublication)
  (candidates : list LocalPublication) :
  (exists c, In c candidates /\ exactMatch target c = true) \/
  (forall c, In c candidates -> exactMatch target c = false).
Proof.
  induction candidates as [| x rest [(c & Hc & Hg) | Hno]].
  - right. intros c [].
  - left. exists c. split; [now right | exact Hg].
  - destruct (exactMatch target x) eqn:Ex.
    + left. exists x. split; [now left | exact Ex].
    + right. intros c [<- | Hc]; auto.
Qed.

Lemma confidence_with_gate (target : HalPublication) (candidates : list LocalPublication) :
  (exists c, In c candidates /\ exactMatch target c = true) ->
  confidence (findCorrespondingPublication target candidates) = Num 1.
Proof.
  intros H. apply first_exact_match in H as (pre & c & suf & -> & Hpre & Hc).
  unfold findCorrespondingPublication.
  now rewrite (matchLoop_first_gate Date_parse target pre c suf None (Num 0) Hpre Hc).
Qed.

(** Without a gate, the confidence returned is the greatest of 0 and the
    fused confidences. *)
Lemma confidence_without_gate (target : HalPublication)
  (candidates : list LocalPublication) :
  (forall c, In c candidates -> exactMatch target c = false) ->
  exists m,
    confidence (findCorrespondingPublication target candidates) = Num m /\
    (0 <= m <= 1)%R /\
    (forall c, In c candidates -> not_above (fusedConfidence target c) m) /\
    (m = 0%R \/ exists w, In w candidates /\ fusedConfidence target w = Num m).
Proof.
  intros Hno. unfold findCorrespondingPublication.
  destruct (matchLoop_no_gate Date_parse target candidates Hno None 0)
    as [[Hres Hall] | (pre & w & suf & m & -> & Hw & Hlt & Hres & Hpre & Hsuf)].
  - exists 0%R. rewrite Hres. simpl. repeat split; try lra; auto.
  - exists m. rewrite Hres. simpl.
    pose proof (fusedConfidence_unit Date_parse target w) as Hu.
    rewrite Hw in Hu. simpl in Hu.
    repeat split; try lra.
    + intros c Hc. apply in_app_or in Hc as [Hc | [<- | Hc]].
      * specialize (Hpre c Hc). destruct (fusedConfidence target c); simpl in *; [exact I | lra].
      * rewrite Hw. simpl. lra.
      * now apply Hsuf.
    + right. exists w. split; [apply in_elt | exact Hw].
Qed.

Lemma confidence_incl (target : HalPublication) (cs cs' : list LocalPublication) :
  incl cs cs' ->
  exists r r',
    confidence (findCorrespondingPublication target cs) = Num r /\
    confidence (findCorrespondingPublication target cs') = Num r' /\
    (r <= r')%R.
Proof.
  intros Hincl.
  destruct (gate_somewhere_or_nowhere target cs) as [(c & Hc & Hg) | Hno].
  - exists 1%R, 1%R. repeat split; try lra; apply confidence_with_gate; eauto.
  - destruct (confidence_without_gate target cs Hno) as (m & Hm & Hr & Hall & Hin).
    destruct (gate_somewhere_or_nowhere target cs') as [Hex | Hno'].
    + exists m, 1%R. repeat split; [exact Hm | now apply confidence_with_gate | lra].
    + destruct (confidence_without_gate target cs' Hno') as (m' & Hm' & Hr' & Hall' & _).
      exists m, m'. repeat split; [exact Hm | exact Hm' |].
      destruct Hin as [-> | (w & Hw & Ew)]; [lra |].
      specialize (Hall' w (Hincl w Hw)). rewrite Ew in Hall'. exact Hall'.
Qed.

(** X10: more candidates never lower the confidence: if every candidate of one
    sequence occurs in another, the confidence over the first is at most
    the confidence over the second. *)
Theorem confidence_is_monotone (target : HalPublication)
  (cs cs' : list LocalPublication) (H : incl cs cs') :
  exists r r',
    confidence (findCorrespondingPublication target cs) = Num r /\
    confidence (findCorrespondingPublication target cs') = Num r' /\
    (r <= r')%R.
Proof. now apply confidence_incl. Qed.

(** X11: the confidence does not depend on the order of the candidates (the
    candidate returned may, on ties). *)
Theorem confidence_ignores_order (target : HalPublication)
  (cs cs' : list LocalPublication) (H : Permutation cs cs') :
  confidence (findCorrespondingPublication target cs) =
  confidence (findCorrespondingPublication target cs').
Proof.
  destruct (confidence_incl target cs cs') as (r & r' & Hr & Hr' & Hle).
  { intros c Hc. now apply (Permutation_in c H). }
  destruct (confidence_incl target cs' cs) as (q' & q & Hq' & Hq & Hle').
  { intros c Hc. apply Permutation_sym in H. now apply (Permutation_in c H). }
  rewrite Hr, Hr'. f_equal.
  rewrite Hr in Hq. rewrite Hr' in Hq'.
  injection Hq as <-. injection Hq' as <-. lra.
Qed.

(** X12: a candidate that has nothing but its date in common with the target,
    the same day, gets confidence 1, as an exact identifier would. *)
Theorem same_day_alone_gives_one (target : HalPublication) (candidate : LocalPublication)
  (a : Z)
  (Hgate : exactMatch target candidate = false)
  (Htitle : computeTitleSimilarity target candidate = NaN)
  (Hauthors : computeAuthorsSimilarity target candidate = NaN)
  (Ht : asDate (publicationDate_s target) = Some (Some a))
  (Hc : asDate (date candidate) = Some (Some a)) :
  fusedConfidence target candidate = Num 1 /\
  findCorrespondingPublication target [candidate] =
  {| best := Some candidate; confidence := Num 1 |}.
Proof.
  assert (fusedConfidence target candidate = Num 1) as Hf.
  { rewrite fusedConfidence_mean, Htitle, Hauthors.
    rewrite (computeDateSimilarity_Math_exp Date_parse _ _ a a Ht Hc).
    unfold days_between.
    replace (IZR a - IZR a)%R with 0%R by lra. rewrite Rabs_R0.
    replace (- (0 / (1000 * 60 * 60 * 24)) / 150)%R with 0%R by (field; lra).
    pose proof exp_underflow_neg.
    rewrite Math_exp_exact by lra. rewrite exp_0. unfold computable_values, arithmetic_mean, Rsum. simpl.
    f_equal. field. }
  split; [exact Hf |].
  unfold findCorrespondingPublication.
  rewrite matchLoop_fused by assumption. rewrite Hf.
  replace (num_gt (Num 1) (Num 0)) with true; [reflexivity |].
  symmetry. apply num_gt_true. exists 1%R, 0%R. repeat split. lra.
Qed.

End MoreEngineProperties.

(** * The main loop *)

Section RunProperties.

Variable Date_parse : string -> option Z.

#[local] Abbreviation findCorrespondingPublication := (findCorrespondingPublication Date_parse).
#[local] Abbreviation compareOne := (Main.compareOne Date_parse).
#[local] Abbreviation compareLoop := (Main.compareLoop Date_parse).
#[local] Abbreviation compareAll := (Main.compareAll Date_parse).
#[local] Abbreviation recorded := (Main.recorded Date_parse).

Lemma compareOne_Normal (threshold : number) (locals : list LocalPublication)
  (h : HalPublication) (r : Main.Result) :
  compareOne threshold locals h = Normal r ->
  Main.target r = h /\ recorded threshold locals r.
Proof.
  unfold Main.compareOne, Main.recorded.
  destruct (findCorrespondingPublication h locals) as [[b |] c] eqn:E;
    [| discriminate].
  intros [= <-]. simpl. rewrite E. auto.
Qed.

Lemma compareOne_Throw (threshold : number) (locals : list LocalPublication)
  (h : HalPublication) (e : error) :
  compareOne threshold locals h = Throw e <->
  e = TypeError /\ best (findCorrespondingPublication h locals) = None.
Proof.
  unfold Main.compareOne.
  destruct (findCorrespondingPublication h locals) as [[b |] c]; simpl.
  - split; [discriminate | intros [_ [=]]].
  - split; [intros [= <-]; auto | intros [-> _]; reflexivity].
Qed.

Lemma compareLoop_Normal (threshold : number) (locals : list LocalPublication)
  (hals : list HalPublication) :
  forall acc rs,
    compareLoop threshold locals hals acc = Normal rs ->
    exists rs',
      rs = acc ++ rs' /\ map Main.target rs' = hals /\
      Forall (recorded threshold locals) rs'.
Proof.
  induction hals as [| h rest IH]; intros acc rs H.
  - injection H as <-. exists []. rewrite app_nil_r. auto.
  - simpl in H.
    destruct (compareOne threshold locals h) as [r | e] eqn:E; [| discriminate].
    apply compareOne_Normal in E as [Et Er].
    apply IH in H as (rs' & -> & Hmap & Hall).
    exists (r :: rs'). rewrite <- app_assoc. simpl.
    repeat split; [congruence | now constructor].
Qed.

Lemma compareLoop_Throw (threshold : number) (locals : list LocalPublication)
  (hals : list HalPublication) :
  forall acc e,
    compareLoop threshold locals hals acc = Throw e <->
    e = TypeError /\
    exists h, In h hals /\ best (findCorrespondingPublication h locals) = None.
Proof.
  induction hals as [| h rest IH]; intros acc e.
  - simpl. split; [discriminate | intros (_ & h & [] & _)].
  - simpl. destruct (compareOne threshold locals h) as [r | e'] eqn:E.
    + rewrite IH. split.
      * intros (-> & h' & Hh & Hb). split; [reflexivity |]. exists h'. auto.
      * intros (-> & h' & [<- | Hh] & Hb).
        -- unfold Main.compareOne in E. 
           destruct (findCorrespondingPublication h locals) as [[b |] c];
             simpl in *; discriminate.
        -- split; [reflexivity |]. eauto.
    + apply compareOne_Throw in E as [-> Hb]. split.
      * intros [= <-]. split; [reflexivity |]. exists h. auto.
      * intros [-> _]. reflexivity.
Qed.

(** X13: when the loop of [run] completes, there is one result per HAL
    publication, in order, and each result holds that publication, the
    candidate and confidence that the engine returned for it, and whether
    the confidence reaches the threshold. *)
Theorem run_records_every_publication (threshold : number)
  (locals : list LocalPublication) (hals : list HalPublication)
  (rs : list Main.Result)
  (H : compareAll threshold locals hals = Normal rs) :
  map Main.target rs = hals /\
  Forall (fun r =>
            findCorrespondingPublication (Main.target r) locals =
              {| best := Some (Main.candidate r); confidence := Main.confidence r |} /\
            Main.accepted r = num_ge (Main.confidence r) threshold) rs.
Proof.
  apply compareLoop_Normal in H as (rs' & -> & Hmap & Hall).
  split; assumption.
Qed.

(** X14: the loop of [run] throws, a [TypeError], exactly when the engine
    returns a null [best] for some HAL publication; so it does whenever
    there are HAL publications and no local publication. *)
Theorem run_fails_on_null_best (threshold : number)
  (locals : list LocalPublication) (hals : list HalPublication) :
  ((exists e, compareAll threshold locals hals = Throw e) <->
   exists h, In h hals /\ best (findCorrespondingPublication h locals) = None) /\
  (forall e, compareAll threshold locals hals = Throw e -> e = TypeError) /\
  (locals = [] -> hals <> [] -> compareAll threshold locals hals = Throw TypeError).
Proof.
  unfold Main.compareAll. split; [| split].
  - split.
    + intros (e & He). now apply compareLoop_Throw in He as [_ He].
    + intros Hex. exists TypeError. apply compareLoop_Throw. auto.
  - intros e He. now apply compareLoop_Throw in He as [-> _].
  - intros -> Hne. apply compareLoop_Throw. split; [reflexivity |].
    destruct hals as [| h rest]; [contradiction |].
    exists h. split; [now left | reflexivity].
Qed.

Lemma recorded_confidence_unit (threshold : number) (locals : list LocalPublication)
  (r : Main.Result) :
  recorded threshold locals r ->
  exists x, Main.confidence r = Num x /\ (0 <= x <= 1)%R.
Proof.
  intros [Hf _].
  destruct (matchLoop_invariant Date_parse (Main.target r) locals None 0)
    as (x & Hx & Hr & _); [lra | tauto |].
  fold (findCorrespondingPublication (Main.target r) locals) in Hx.
  rewrite Hf in Hx. simpl in Hx. eauto.
Qed.

(** X15: a HAL publication for which some local publication fires an
    exact-identifier rule is never among the missing publications, for
    any threshold up to 1. *)
Theorem exact_match_is_never_missing (x : R) (locals : list LocalPublication)
  (hals : list HalPublication) (rs : list Main.Result) (h : HalPublication)
  (Hx : (x <= 1)%R)
  (H : compareAll (Num x) locals hals = Normal rs)
  (Hgate : exists c, In c locals /\ exactMatch h c = true) :
  ~ In h (Main.missingPublications rs).
Proof.
  apply compareLoop_Normal in H as (rs' & -> & _ & Hall). simpl.
  unfold Main.missingPublications. intros Hin.
  apply in_map_iff in Hin as (r & <- & Hr).
  apply filter_In in Hr as [Hr Hacc].
  rewrite Forall_forall in Hall. destruct (Hall r Hr) as [Hf Ha].
  pose proof (confidence_with_gate Date_parse (Main.target r) locals Hgate) as Hc.
  fold (findCorrespondingPublication (Main.target r) locals) in Hc.
  rewrite Hf in Hc. simpl in Hc. rewrite Ha, Hc in Hacc. simpl in Hacc.
  destruct (Rle_dec x 1); [discriminate | contradiction].
Qed.

(** X16: the threshold at its extremes: when it is not a number, or greater
    than 1, every HAL publication is missing; when it is 0 or less, none
    is. *)
Theorem threshold_extremes (threshold : number) (locals : list LocalPublication)
  (hals : list HalPublication) (rs : list Main.Result)
  (H : compareAll threshold locals hals = Normal rs) :
  (threshold = NaN \/ (exists x, threshold = Num x /\ (1 < x)%R) ->
   Main.missingPublications rs = hals) /\
  ((exists x, threshold = Num x /\ (x <= 0)%R) ->
   Main.missingPublications rs = []).
Proof.
  apply compareLoop_Normal in H as (rs' & -> & Hmap & Hall). simpl.
  unfold Main.missingPublications. split.
  - intros Hth. rewrite <- Hmap. clear Hmap. f_equal.
    induction Hall as [| r rest Hr _ IH]; [reflexivity |].
    simpl. destruct Hr as [Hf Ha].
    assert (Main.accepted r = false) as ->.
    { rewrite Ha.
      destruct (recorded_confidence_unit threshold locals r (conj Hf Ha))
        as (c & -> & Hc).
      destruct Hth as [-> | (x & -> & Hx)]; [reflexivity |]. simpl.
      destruct (Rle_dec x c); [lra | reflexivity]. }
    simpl. f_equal. exact IH.
  - intros (x & -> & Hx). clear Hmap.
    induction Hall as [| r rest Hr _ IH]; [reflexivity |].
    simpl. destruct Hr as [Hf Ha].
    assert (Main.accepted r = true) as ->.
    { rewrite Ha.
      destruct (recorded_confidence_unit (Num x) locals r (conj Hf Ha))
        as (c & -> & Hc).
      simpl. destruct (Rle_dec x c); [reflexivity | lra]. }
    simpl. exact IH.
Qed.

End RunProperties.

(** ** The summary *)

Lemma sortedInsert_rejected (x : Main.Result) (l : list Main.Result) :
  Main.accepted x = false -> sortedInsert Main.byAccepted x l = x :: l.
Proof.
  intros Hx. destruct l as [| y r]; [reflexivity |]. simpl.
  unfold Main.byAccepted. rewrite Hx.
  destruct (Main.accepted y); reflexivity.
Qed.

Lemma sortedInsert_accepted (x : Main.Result) (rej acc : list Main.Result) :
  Main.accepted x = true ->
  Forall (fun r => Main.accepted r = false) rej ->
  Forall (fun r => Main.accepted r = true) acc ->
  sortedInsert Main.byAccepted x (rej ++ acc) = rej ++ x :: acc.
Proof.
  intros Hx Hrej Hacc. induction Hrej as [| y rej Hy _ IH]; simpl.
  - destruct Hacc as [| y acc Hy _]; [reflexivity |]. simpl.
    unfold Main.byAccepted. now rewrite Hx, Hy.
  - unfold Main.byAccepted at 1. rewrite Hx, Hy. simpl. now rewrite IH.
Qed.

(** X17: the summary lists the results that were not accepted first, then the
    accepted ones, each group in the order of the HAL publications; and
    its two counts add up to the number of results. *)
Theorem summary_order_and_counts (results : list Main.Result) :
  toSorted Main.byAccepted results =
    filter (fun result => negb (Main.accepted result)) results ++
    filter (fun result => Main.accepted result) results /\
  Main.notFound results + Main.found results = List.length results.
Proof.
  split.
  - induction results as [| x rest IH]; [reflexivity |].
    simpl. rewrite IH. destruct (Main.accepted x) eqn:Hx; simpl.
    + apply sortedInsert_accepted; [exact Hx | |];
        apply Forall_forall; intros r Hr; apply filter_In in Hr as [_ Hr];
        [now apply negb_true_iff in Hr | exact Hr].
    + now apply sortedInsert_rejected.
  - unfold Main.notFound, Main.found.
    induction results as [| x rest IH]; [reflexivity |].
    simpl. destruct (Main.accepted x); simpl; lia.
Qed.

(** * Reading a local publication *)

Lemma indexOf_at_absent (x : string) (fromIndex : nat) (l : list string) :
  forall k, ~ In x l -> indexOf_at x fromIndex k l = (-1)%Z.
Proof.
  induction l as [| y r IH]; intros k Hno; [reflexivity |].
  simpl. assert ((y =? x) = false) as ->.
  { apply String.eqb_neq. intros ->. apply Hno. now left. }
  rewrite andb_false_r. apply IH. intros Hin. apply Hno. now right.
Qed.

Lemma indexOf_at_first (x : string) (fromIndex : nat) (l rest : list string) :
  forall k, (fromIndex <= k)%nat -> ~ In x l ->
            indexOf_at x fromIndex k (l ++ x :: rest) = Z.of_nat (k + List.length l).
Proof.
  induction l as [| y r IH]; intros k Hk Hno.
  - simpl. apply Nat.leb_le in Hk. rewrite Hk, String.eqb_refl. simpl.
    f_equal. lia.
  - simpl. assert ((y =? x) = false) as ->.
    { apply String.eqb_neq. intros ->. apply Hno. now left. }
    rewrite andb_false_r, IH; [f_equal; lia | lia |].
    intros Hin. apply Hno. now right.
Qed.

Lemma slice_to_closing {A : Type} (d l1 : A) (mid rest : list A) :
  slice 1 (Z.of_nat (2 + List.length mid)) (d :: l1 :: mid ++ d :: rest) = l1 :: mid.
Proof.
  unfold slice.
  set (len := Z.of_nat (List.length (d :: l1 :: mid ++ d :: rest))).
  assert (len = Z.of_nat (3 + List.length mid + List.length rest)) as Hlen.
  { unfold len. f_equal. simpl. rewrite length_app. simpl. lia. }
  clearbody len.
  change (1 <? 0)%Z with false. cbv iota.
  assert ((Z.of_nat (2 + List.length mid) <? 0)%Z = false) as ->
      by (apply Z.ltb_ge; lia).
  replace (Z.min 1 len) with 1%Z by lia.
  replace (Z.min (Z.of_nat (2 + List.length mid)) len)
    with (Z.of_nat (2 + List.length mid)) by lia.
  replace (Z.to_nat (Z.of_nat (2 + List.length mid) - 1))
    with (S (List.length mid)) by lia.
  change (Z.to_nat 1) with 1. simpl skipn. simpl firstn. f_equal.
  rewrite firstn_app, Nat.sub_diag, firstn_all. simpl. apply app_nil_r.
Qed.

Lemma slice_without_closing {A : Type} (d : A) (rest : list A) :
  slice 1 (-1) (d :: rest) = removelast rest.
Proof.
  unfold slice.
  set (len := Z.of_nat (List.length (d :: rest))).
  assert (len = Z.of_nat (S (List.length rest))) as Hlen by reflexivity.
  clearbody len.
  change (1 <? 0)%Z with false. change (-1 <? 0)%Z with true. cbv iota.
  replace (Z.min 1 len) with 1%Z by lia.
  replace (Z.to_nat (Z.max (len + -1) 0 - 1)) with (pred (List.length rest)) by lia.
  change (Z.to_nat 1) with 1. simpl skipn.
  symmetry. apply removelast_firstn_len.
Qed.

Lemma frontmatterOf_closed (content d l1 : string) (mid rest : list string) :
  d = "+++" \/ d = "---" ->
  split_lines (trim content) = d :: l1 :: mid ++ d :: rest ->
  ~ In d mid ->
  frontmatterOf content =
  Normal (parserFor d (join_with (String LF EmptyString) (l1 :: mid))).
Proof.
  intros Hd Hlines Hmid.
  unfold frontmatterOf. rewrite Hlines.
  change (hd EmptyString (d :: l1 :: mid ++ d :: rest)) with d.
  assert (indexOf d 2 (d :: l1 :: mid ++ d :: rest) =
          Z.of_nat (2 + List.length mid)) as ->.
  { unfold indexOf. simpl. now apply indexOf_at_first. }
  rewrite slice_to_closing. unfold parserFor.
  destruct Hd as [-> | ->]; reflexivity.
Qed.

(** X18: when the trimmed content starts with a recognised delimiter and that
    delimiter comes back on a later line, the third or beyond, the text
    handed to the parser is the lines between the two, joined by line
    feeds.  The second line is never taken for the closing delimiter. *)
Theorem frontmatter_between_delimiters (content d l1 : string) (mid rest : list string)
  (Hd : d = "+++" \/ d = "---")
  (Hlines : split_lines (trim content) = d :: l1 :: mid ++ d :: rest)
  (Hmid : ~ In d mid) :
  frontmatterOf content =
  Normal (parserFor d (join_with (String LF EmptyString) (l1 :: mid))).
Proof. exact (frontmatterOf_closed content d l1 mid rest Hd Hlines Hmid). Qed.

(** X19: when the delimiter does not come back from the third line on, the
    missing delimiter is not reported: the parser is still called, and the
    text handed to it is every line after the first except the last one,
    which is dropped. *)
Theorem frontmatter_without_closing (content d : string) (rest : list string)
  (Hd : d = "+++" \/ d = "---")
  (Hlines : split_lines (trim content) = d :: rest)
  (Hno : ~ In d (tl rest)) :
  frontmatterOf content =
  Normal (parserFor d (join_with (String LF EmptyString) (removelast rest))).
Proof.
  unfold frontmatterOf. rewrite Hlines.
  change (hd EmptyString (d :: rest)) with d.
  assert (indexOf d 2 (d :: rest) = (-1)%Z) as ->.
  { unfold indexOf. destruct rest as [| l1 rest']; [reflexivity |].
    simpl. now apply indexOf_at_absent. }
  rewrite slice_without_closing. unfold parserFor.
  destruct Hd as [-> | ->]; reflexivity.
Qed.

Lemma trimStart_blank (ws : string) : all_whitespace ws = true -> trimStart ws = "".
Proof.
  induction ws as [| c r IH]; [reflexivity |].
  simpl. intros H. apply andb_true_iff in H as [Hc Hr]. now rewrite Hc, IH.
Qed.

Lemma trimStart_blank_app (ws s : string) :
  all_whitespace ws = true -> trimStart (ws ++ s) = trimStart s.
Proof.
  induction ws as [| c r IH]; [reflexivity |].
  simpl. intros H. apply andb_true_iff in H as [Hc Hr]. now rewrite Hc, IH.
Qed.

Lemma trimEnd_blank (ws : string) : all_whitespace ws = true -> trimEnd ws = "".
Proof.
  induction ws as [| c r IH]; [reflexivity |].
  simpl. intros H. apply andb_true_iff in H as [Hc Hr]. now rewrite IH, Hc.
Qed.

Lemma trimEnd_app_blank (s ws : string) :
  all_whitespace ws = true -> trimEnd (s ++ ws) = trimEnd s.
Proof.
  intros H. induction s as [| c r IH].
  - simpl. now apply trimEnd_blank.
  - simpl. now rewrite IH.
Qed.

Lemma trim_app_blank (s ws : string) :
  all_whitespace ws = true -> trim (s ++ ws) = trim s.
Proof.
  intros H. unfold trim. induction s as [| c r IH].
  - simpl. now rewrite trimStart_blank.
  - simpl. destruct (is_whitespace c); [exact IH |].
    change (String c (r ++ ws)) with (String c r ++ ws)%string.
    now apply trimEnd_app_blank.
Qed.

(** X20: white space around the content of the file changes nothing: blank
    lines before the first delimiter and after the last line are removed
    before anything is looked at. *)
Theorem surrounding_whitespace_is_ignored (content before after : string)
  (Hb : all_whitespace before = true) (Ha : all_whitespace after = true) :
  frontmatterOf (before ++ content ++ after) = frontmatterOf content.
Proof.
  unfold frontmatterOf.
  assert (trim (before ++ content ++ after) = trim content) as ->; [| reflexivity].
  rewrite <- (trim_app_blank content after Ha).
  unfold trim. now rewrite trimStart_blank_app.
Qed.

Lemma trimEnd_cons (c : ascii) (r : string) :
  trimEnd r <> "" -> trimEnd (String c r) = String c (trimEnd r).
Proof.
  intros H. simpl. destruct (trimEnd r); [contradiction | reflexivity].
Qed.

Lemma trimEnd_app_nonblank (p r : string) :
  trimEnd r <> "" -> trimEnd (p ++ r) = (p ++ trimEnd r)%string.
Proof.
  intros H. induction p as [| c p IH]; [reflexivity |].
  simpl append. rewrite trimEnd_cons; rewrite IH; [reflexivity |].
  destruct p; [exact H | discriminate].
Qed.

Lemma trim_nonblank (s : string) : trim s <> "" -> trimEnd s <> "".
Proof.
  unfold trim. induction s as [| c r IH]; [auto |].
  simpl trimStart. destruct (is_whitespace c) eqn:Ec; [| auto].
  intros H. rewrite trimEnd_cons by auto. discriminate.
Qed.

(** X21: a file with Windows line ends is rejected as soon as something other
    than white space follows its first line: the first line keeps its
    carriage return and is no recognised delimiter. *)
Theorem windows_line_ends_are_rejected (d rest : string)
  (Hd : d = "+++" \/ d = "---") (Hrest : trim rest <> "") :
  frontmatterOf (d ++ String CR (String LF rest)) =
  Throw (Error ("Unrecognized delimiter: " ++ d ++ String CR EmptyString)).
Proof.
  apply trim_nonblank in Hrest.
  assert (forall c1 c2 c3 : ascii,
             is_whitespace c1 = false ->
             trim (String c1 (String c2 (String c3 (String CR (String LF rest))))) =
             String c1 (String c2 (String c3 (String CR (String LF (trimEnd rest))))))
    as Htrim.
  { intros c1 c2 c3 H1. unfold trim. simpl trimStart. rewrite H1.
    apply (trimEnd_app_nonblank
             (String c1 (String c2 (String c3 (String CR (String LF EmptyString)))))
             rest Hrest). }
  unfold frontmatterOf.
  destruct Hd as [-> | ->]; simpl append; rewrite Htrim by reflexivity;
    simpl split_lines; destruct (split_lines (trimEnd rest)); reflexivity.
Qed.

(** * Creating the files of a missing publication *)

Lemma string_app_assoc (a b c : string) : ((a ++ b) ++ c = a ++ (b ++ c))%string.
Proof. induction a as [| x a IH]; simpl; [reflexivity | now rewrite IH]. Qed.

Lemma string_app_nil_r (a : string) : (a ++ "" = a)%string.
Proof. induction a as [| x a IH]; simpl; [reflexivity | now rewrite IH]. Qed.

Lemma split_lines_nonempty (s : string) : split_lines s <> [].
Proof.
  induction s as [| c r IH]; simpl; [discriminate |].
  destruct (Ascii.eqb c LF); [discriminate |].
  destruct (split_lines r); discriminate.
Qed.

Lemma split_lines_app_LF (a b : string) :
  split_lines (a ++ String LF b) = split_lines a ++ split_lines b.
Proof.
  induction a as [| c r IH]; [reflexivity |].
  simpl. rewrite IH. destruct (Ascii.eqb c LF); [reflexivity |].
  pose proof (split_lines_nonempty r) as Hne.
  destruct (split_lines r); [contradiction | reflexivity].
Qed.

Lemma unlines_app (l1 l2 : list string) :
  unlines (l1 ++ l2) = (unlines l1 ++ unlines l2)%string.
Proof.
  induction l1 as [| l rest IH]; [reflexivity |].
  simpl. rewrite IH. now rewrite !string_app_assoc.
Qed.

Lemma split_unlines (lines : list string) (x : string) :
  split_lines (unlines lines ++ x) = flat_map split_lines lines ++ split_lines x.
Proof.
  induction lines as [| l rest IH]; [reflexivity |].
  change (unlines (l :: rest) ++ x)%string
    with ((l ++ String LF (unlines rest)) ++ x)%string.
  rewrite string_app_assoc.
  change (String LF (unlines rest) ++ x)%string
    with (String LF (unlines rest ++ x)).
  rewrite split_lines_app_LF, IH. simpl. now rewrite app_assoc.
Qed.

(** A text made of an opening delimiter, lines and a closing delimiter:
    its lines once trimmed. *)
Lemma delimited_lines (body : list string) :
  split_lines (trim (unlines (["+++"] ++ body ++ ["+++"]))) =
  "+++" :: flat_map split_lines body ++ ["+++"].
Proof.
  assert (trim (unlines (["+++"] ++ body ++ ["+++"])) =
          (unlines (["+++"] ++ body) ++ "+++")%string) as ->.
  { rewrite app_assoc, unlines_app.
    change (unlines ["+++"]) with ("+++" ++ String LF EmptyString)%string.
    rewrite <- string_app_assoc.
    rewrite trim_app_blank by reflexivity.
    unfold trim. change (trimStart (unlines (["+++"] ++ body) ++ "+++"))
      with (unlines (["+++"] ++ body) ++ "+++")%string.
    now rewrite trimEnd_app_nonblank by discriminate. }
  rewrite split_unlines, flat_map_app. reflexivity.
Qed.

Lemma flat_split_nonempty (body : list string) :
  body <> [] -> flat_map split_lines body <> [].
Proof.
  destruct body as [| l rest]; [contradiction |]. intros _. simpl.
  pose proof (split_lines_nonempty l).
  destruct (split_lines l); [contradiction | discriminate].
Qed.

Lemma delimited_reads_back (body : list string) :
  body <> [] ->
  let text := unlines (["+++"] ++ body ++ ["+++"]) in
  let mid := flat_map split_lines body in
  split_lines text = "+++" :: mid ++ ["+++"; ""] /\
  (exists fm, frontmatterOf text = Normal (Toml fm)) /\
  (~ In "+++" mid ->
   frontmatterOf text = Normal (Toml (join_with (String LF EmptyString) mid))).
Proof.
  intros Hne text mid. split; [| split].
  - unfold text. rewrite <- (string_app_nil_r (unlines _)).
    rewrite split_unlines, !flat_map_app. simpl. fold mid.
    now rewrite <- app_assoc.
  - unfold frontmatterOf, text. rewrite delimited_lines. simpl hd.
    change ("+++" =? "+++") with true. cbv iota. eauto.
  - intros Hno. pose proof (flat_split_nonempty body Hne) as Hmid. fold mid in Hmid.
    destruct mid as [| l1 mid'] eqn:E; [contradiction |].
    apply (frontmatterOf_closed text "+++" l1 mid' []).
    + now left.
    + unfold text. rewrite delimited_lines. fold mid. now rewrite E.
    + intros Hin. apply Hno. now right.
Qed.

Lemma Normal_inj {A : Type} (a b : A) : Normal a = Normal b -> a = b.
Proof. now intros [=]. Qed.

Lemma createIndexMdFile_shape (publication : HalDoc) (text : string) :
  createIndexMdFile publication = Normal text ->
  exists body, body <> [] /\ text = unlines (["+++"] ++ body ++ ["+++"]).
Proof.
  unfold createIndexMdFile.
  destruct (formatArray (get "authFullName_s" publication)); [| discriminate].
  destruct (get "abstract_s" publication) as [[s | l] |]; try discriminate.
  destruct (formatArray (get "keyword_s" publication)); [| discriminate].
  intros H. apply Normal_inj in H. subst text.
  eexists. split; [| reflexivity]. unfold indexMdBody. discriminate.
Qed.

(** X22: a file made by [createIndexMdFile] is read back as TOML: it opens and
    closes with [+++]; and if no line between these two is [+++], the text
    handed to the TOML parser is the lines between them. *)
Theorem created_file_reads_back (publication : HalDoc) (text : string)
  (H : createIndexMdFile publication = Normal text) :
  exists mid,
    split_lines text = "+++" :: mid ++ ["+++"; ""] /\
    (exists fm, frontmatterOf text = Normal (Toml fm)) /\
    (~ In "+++" mid ->
     frontmatterOf text = Normal (Toml (join_with (String LF EmptyString) mid))).
Proof.
  apply createIndexMdFile_shape in H as (body & Hne & ->).
  exists (flat_map split_lines body). now apply delimited_reads_back.
Qed.

Lemma formatArray_Throw (array : option json) (e : error) :
  formatArray array = Throw e <->
  e = TypeError /\ exists s, array = Some (JString s) /\ s <> "".
Proof.
  unfold formatArray. destruct array as [[s | l] |].
  - destruct (s =? "") eqn:E.
    + apply String.eqb_eq in E. subst. split; [discriminate |].
      intros (_ & s & [= <-] & Hs). now elim Hs.
    + apply String.eqb_neq in E. split.
      * intros [= <-]. eauto.
      * intros [-> _]. reflexivity.
  - split; [discriminate | intros (_ & s & [=] & _)].
  - split; [discriminate | intros (_ & s & [=] & _)].
Qed.

(** X23: [createIndexMdFile] throws, a [TypeError], exactly when the abstract is
    not an array (a publication with no abstract has none), or when the
    authors or the keywords are a string that is not empty. *)
Theorem createIndexMdFile_throws_iff (publication : HalDoc) :
  ((exists e, createIndexMdFile publication = Throw e) <->
   (forall l, get "abstract_s" publication <> Some (JArray l)) \/
   (exists s, get "authFullName_s" publication = Some (JString s) /\ s <> "") \/
   (exists s, get "keyword_s" publication = Some (JString s) /\ s <> "")) /\
  (forall e, createIndexMdFile publication = Throw e -> e = TypeError).
Proof.
  unfold createIndexMdFile.
  destruct (formatArray (get "authFullName_s" publication)) as [authors | e1] eqn:Ea.
  - destruct (get "abstract_s" publication) as [[s | l] |] eqn:Eabs.
    + split; [| now intros e [= <-]].
      split; [intros _; left; discriminate | eauto].
    + destruct (formatArray (get "keyword_s" publication)) as [tags | e2] eqn:Ek.
      * split; [| discriminate]. split; [intros (e & [=]) |].
        intros [Hno | [(s & Hs & Hne) | (s & Hs & Hne)]].
        -- now elim (Hno l).
        -- assert (formatArray (get "authFullName_s" publication) = Throw TypeError)
             as Hthrow by (apply formatArray_Throw; eauto).
           congruence.
        -- assert (formatArray (get "keyword_s" publication) = Throw TypeError)
             as Hthrow by (apply formatArray_Throw; eauto).
           congruence.
      * apply formatArray_Throw in Ek as (-> & s & Hs & Hne).
        split; [| now intros e [= <-]].
        split; [intros _; right; right; eauto | eauto].
    + split; [| now intros e [= <-]].
      split; [intros _; left; discriminate | eauto].
  - apply formatArray_Throw in Ea as (-> & s & Hs & Hne).
    split; [| now intros e [= <-]].
    split; [intros _; right; left; eauto | eauto].
Qed.

Lemma written_app (a b : list fs_call) : written (a ++ b) = written a ++ written b.
Proof.
  induction a as [| [p | p d] a IH]; simpl; [reflexivity | exact IH | now rewrite IH].
Qed.

Lemma createIndexMdFile_TypeError (publication : HalDoc) (e : error) :
  createIndexMdFile publication = Throw e -> e = TypeError.
Proof.
  unfold createIndexMdFile.
  destruct (formatArray (get "authFullName_s" publication)) as [a | e1] eqn:Ea.
  - destruct (get "abstract_s" publication) as [[s | l] |]; try now intros [= <-].
    destruct (formatArray (get "keyword_s" publication)) as [t | e2] eqn:Ek;
      [discriminate |].
    intros [= <-]. now apply formatArray_Throw in Ek.
  - intros [= <-]. now apply formatArray_Throw in Ea.
Qed.

Lemma createFiles_Normal (localPath : string) (publication : HalDoc)
  (fs fs' : list fs_call) (files : list string) :
  createFiles localPath publication fs = (Normal files, fs') ->
  exists calls more,
    fs' = fs ++ calls /\ written calls = files /\
    files = (localPath ++ "/" ++ template (get "halId_s" publication) ++ "/index.md")%string
            :: more /\
    List.length more <= 1.
Proof.
  unfold createFiles.
  destruct (createIndexMdFile publication) as [data | e]; [| discriminate].
  destruct (truthy_json (get "label_bibtex" publication)).
  - destruct (get "label_bibtex" publication) as [[bibtex | l] |]; try discriminate.
    intros [= <- <-].
    exists [mkdirSync (localPath ++ "/" ++ template (get "halId_s" publication));
            writeFileSync
              ((localPath ++ "/" ++ template (get "halId_s" publication)) ++ "/index.md")
              data;
            writeFileSync
              ((localPath ++ "/" ++ template (get "halId_s" publication)) ++ "/cite.bib")
              bibtex].
    exists [((localPath ++ "/" ++ template (get "halId_s" publication)) ++ "/cite.bib")%string].
    rewrite <- !app_assoc, !string_app_assoc. simpl. repeat split; lia.
  - intros [= <- <-].
    exists [mkdirSync (localPath ++ "/" ++ template (get "halId_s" publication));
            writeFileSync
              ((localPath ++ "/" ++ template (get "halId_s" publication)) ++ "/index.md")
              data].
    exists [].
    rewrite <- !app_assoc, !string_app_assoc. simpl. repeat split; lia.
Qed.

Lemma createLoop_Normal (localPath : string) (publications : list HalDoc) :
  forall acc body fs files body' fs',
    createLoop localPath publications acc body fs = (Normal (files, body'), fs') ->
    exists calls new,
      fs' = fs ++ calls /\ files = acc ++ new /\ written calls = new /\
      List.length publications <= List.length new <= 2 * List.length publications /\
      forall p, In p publications ->
        In (localPath ++ "/" ++ template (get "halId_s" p) ++ "/index.md")%string new.
Proof.
  induction publications as [| p rest IH]; intros acc body fs files body' fs' H.
  - simpl in H. injection H as <- <- <-. exists [], [].
    rewrite !app_nil_r. simpl. repeat split; try lia; try (intros p []).
  - simpl in H.
    destruct (createFiles localPath p fs) as [[created | e] fs1] eqn:E;
      [| discriminate].
    apply createFiles_Normal in E as (calls1 & more & -> & Hw & -> & Hlen).
    apply IH in H as (calls2 & new2 & -> & -> & Hw2 & Hcount & Hin).
    exists (calls1 ++ calls2), (written calls1 ++ new2).
    rewrite !app_assoc, written_app, Hw2.
    assert (List.length (written calls1) = S (List.length more)) as Hl
        by now rewrite Hw.
    repeat split; try (rewrite Hw; reflexivity).
    + rewrite length_app. simpl List.length. lia.
    + rewrite length_app. simpl List.length. lia.
    + intros q [<- | Hq].
      * rewrite Hw. now left.
      * apply in_or_app. right. now apply Hin.
Qed.

(** X24: when [createPullRequests] returns, the files it reports are the files
    it has written, in the order of writing; each publication has its
    [index.md] among them, and there are at most two files for each. *)
Theorem created_files_are_the_files_written (localPath : string)
  (publications : list HalDoc) (fs fs' : list fs_call)
  (files : list string) (body : string)
  (H : createPullRequests localPath publications fs = (Normal (files, body), fs')) :
  exists calls,
    fs' = fs ++ calls /\ written calls = files /\
    List.length publications <= List.length files <= 2 * List.length publications /\
    forall p, In p publications ->
      In (localPath ++ "/" ++ template (get "halId_s" p) ++ "/index.md")%string files.
Proof.
  apply createLoop_Normal in H as (calls & new & -> & -> & Hw & Hcount & Hin).
  exists calls. simpl. auto.
Qed.

Lemma createLoop_app (localPath : string) (pre rest : list HalDoc) :
  forall acc body fs acc' body' fs1,
    createLoop localPath pre acc body fs = (Normal (acc', body'), fs1) ->
    createLoop localPath (pre ++ rest) acc body fs =
    createLoop localPath rest acc' body' fs1.
Proof.
  induction pre as [| p pre IH]; intros acc body fs acc' body' fs1 H.
  - simpl in H. now injection H as <- <- <-.
  - simpl in *.
    destruct (createFiles localPath p fs) as [[created | e] fs2]; [| discriminate].
    now apply IH.
Qed.

(** X25: when a publication cannot be written, the publications before it have
    been: [createPullRequests] throws after the calls of a complete run
    over those before, and after making the folder of the one that fails;
    nothing is rolled back, and the publications after it are not
    looked at. *)
Theorem failure_keeps_earlier_files (localPath : string)
  (pre suf : list HalDoc) (p : HalDoc) (fs fs1 : list fs_call)
  (r : list string * string) (e : error)
  (Hpre : createPullRequests localPath pre fs = (Normal r, fs1))
  (Hp : createIndexMdFile p = Throw e) :
  createPullRequests localPath (pre ++ p :: suf) fs =
  (Throw TypeError,
   fs1 ++ [mkdirSync (localPath ++ "/" ++ template (get "halId_s" p))]).
Proof.
  unfold createPullRequests in *. destruct r as [acc' body'].
  rewrite (createLoop_app localPath pre (p :: suf) _ _ _ _ _ _ Hpre).
  simpl. unfold createFiles. rewrite Hp.
  now rewrite (createIndexMdFile_TypeError p e Hp).
Qed.

(** * What the HAL response holds *)

Lemma get_absent (key : string) (publication : HalDoc) :
  ~ In key (keys publication) -> get key publication = None.
Proof.
  induction publication as [| [k v] rest IH]; [reflexivity |].
  simpl. intros H. destruct (k =? key) eqn:E.
  - apply String.eqb_eq in E. elim H. now left.
  - apply IH. intros Hin. apply H. now right.
Qed.

(** X26: the engine reads the authors of the target under the key [authors_t],
    which is not one of the fields requested from HAL: for a document that
    holds requested fields only, the author measure is never computable,
    and the confidence is the mean of the title and date measures. *)
Theorem requested_fields_leave_authors_out (publication : HalDoc)
  (target : HalPublication)
  (Hkeys : incl (keys publication) fields)
  (Ht : asTarget publication = Some target) :
  authors_t target = None /\
  forall Date_parse candidate,
    computeAuthorsSimilarity target candidate = NaN /\
    fusedConfidence Date_parse target candidate =
    arithmetic_mean (computable_values
      [computeTitleSimilarity target candidate;
       computeDateSimilarity Date_parse target candidate]).
Proof.
  assert (get "authors_t" publication = None) as Hget.
  { apply get_absent. intros Hin. apply Hkeys in Hin.
    unfold fields in Hin. simpl in Hin.
    repeat (destruct Hin as [Hin | Hin]; [discriminate |]). exact Hin. }
  assert (authors_t target = None) as Hnone.
  { unfold asTarget in Ht. rewrite Hget in Ht.
    destruct (string_field (get "halId_s" publication)); [| discriminate].
    destruct (string_field (get "doiId_s" publication)); [| discriminate].
    simpl in Ht.
    destruct (string_field (get "publicationDate_s" publication)); [| discriminate].
    now injection Ht as <-. }
  split; [exact Hnone |]. intros Date_parse candidate.
  assert (computeAuthorsSimilarity target candidate = NaN) as Ha
      by (unfold computeAuthorsSimilarity; now rewrite Hnone).
  split; [exact Ha |].
  rewrite fusedConfidence_mean, Ha.
  now destruct (computeTitleSimilarity target candidate).
Qed.

(** * Concrete runs of the further properties *)

Lemma hal_versions_witness :
  "hal-000111" <> "" /\ "2" <> "" /\ all_digits "2" = true /\
  halId_s scenario1_target = Some ("hal-000111" ++ String "v" "2")%string /\
  haveSameHalID scenario1_target versioned_candidate = true.
Proof.
  assert ("hal-000111" <> "") as Hp by discriminate.
  assert ("2" <> "") as H1 by discriminate.
  split; [exact Hp |]. split; [exact H1 |].
  split; [reflexivity |]. split; [reflexivity |].
  apply (proj1 (hal_versions_are_ignored scenario1_target versioned_candidate "hal-000111" "2"
                  Hp H1 eq_refl eq_refl) "1");
    [discriminate | reflexivity | reflexivity].
Defined.

Lemma needs_identifier_witness :
  (halId_s bare_target = None \/ halId_s bare_target = Some "" \/
   (exists d, halId_s bare_target = Some (String "v" d) /\ d <> "" /\
              all_digits d = true) \/
   hal scenario1_candidate = None \/ hal scenario1_candidate = Some "") /\
  haveSameHalID bare_target scenario1_candidate = false.
Proof.
  assert (halId_s bare_target = None \/ halId_s bare_target = Some "" \/
          (exists d, halId_s bare_target = Some (String "v" d) /\ d <> "" /\
                     all_digits d = true) \/
          hal scenario1_candidate = None \/ hal scenario1_candidate = Some "") as H
      by now left.
  split; [exact H |].
  exact (haveSameHalID_needs_identifier bare_target scenario1_candidate H).
Defined.

Lemma similarity_one_witness :
  ("kitten" <> "" \/ "sitting" <> "") /\
  (stringSimilarity "kitten" "sitting" = Num 1 <-> "kitten" = "sitting").
Proof.
  assert ("kitten" <> "" \/ "sitting" <> "") as H by (left; discriminate).
  split; [exact H | exact (stringSimilarity_one_iff "kitten" "sitting" H)].
Defined.

Lemma title_maximum_witness :
  title_s scenario2_target = Some (TitleArray ["Deep Learning for X"]) /\
  title scenario2_candidate = Some "Deep Learning for X" /\
  "Deep Learning for X" <> "" /\
  exists m,
    computeTitleSimilarity scenario2_target scenario2_candidate = Num m /\
    (["Deep Learning for X"] <> [] ->
     exists h, In h ["Deep Learning for X"] /\
               stringSimilarity h "Deep Learning for X" = Num m).
Proof.
  assert ("Deep Learning for X" <> "") as Hs by discriminate.
  split; [reflexivity |]. split; [reflexivity |]. split; [exact Hs |].
  destruct (title_similarity_is_maximum scenario2_target scenario2_candidate
              ["Deep Learning for X"] "Deep Learning for X" eq_refl eq_refl Hs)
    as (m & Hm & _ & Hex).
  exists m. split; assumption.
Defined.

Lemma title_string_witness :
  title_s disjoint_target = Some (TitleString "abc") /\
  computeTitleSimilarity disjoint_target disjoint_candidate =
  computeTitleSimilarity disjoint_array_target disjoint_candidate.
Proof.
  split; [reflexivity |].
  apply (proj1 (title_string_or_singleton disjoint_target disjoint_array_target
                  disjoint_candidate "abc"
                  eq_refl eq_refl)).
  discriminate.
Defined.

Lemma scenario1_run (rest : list LocalPublication) :
  findCorrespondingPublication iso_date_parse scenario1_target
    (scenario1_candidate :: rest) =
  {| best := Some scenario1_candidate; confidence := Num 1 |}.
Proof. now apply matchLoop_gate. Qed.

Lemma best_is_a_candidate_witness :
  best (findCorrespondingPublication iso_date_parse scenario1_target
          [scenario1_candidate; bare_candidate]) = Some scenario1_candidate /\
  In scenario1_candidate [scenario1_candidate; bare_candidate].
Proof.
  assert (best (findCorrespondingPublication iso_date_parse scenario1_target
                  [scenario1_candidate; bare_candidate]) = Some scenario1_candidate)
    as H by now rewrite scenario1_run.
  split; [exact H |].
  exact (best_is_a_candidate iso_date_parse scenario1_target _ _ H).
Defined.

Lemma confidence_monotone_witness :
  incl [bare_candidate] [scenario1_candidate; bare_candidate] /\
  exists r r',
    confidence (findCorrespondingPublication iso_date_parse scenario1_target
                  [bare_candidate]) = Num r /\
    confidence (findCorrespondingPublication iso_date_parse scenario1_target
                  [scenario1_candidate; bare_candidate]) = Num r' /\
    (r <= r')%R.
Proof.
  assert (incl [bare_candidate] [scenario1_candidate; bare_candidate]) as H
      by (intros c [<- | []]; right; now left).
  split; [exact H |].
  exact (confidence_is_monotone iso_date_parse scenario1_target _ _ H).
Defined.

Lemma confidence_order_witness :
  Permutation [bare_candidate; scenario2_candidate]
              [scenario2_candidate; bare_candidate] /\
  confidence (findCorrespondingPublication iso_date_parse scenario2_target
                [bare_candidate; scenario2_candidate]) =
  confidence (findCorrespondingPublication iso_date_parse scenario2_target
                [scenario2_candidate; bare_candidate]).
Proof.
  assert (Permutation [bare_candidate; scenario2_candidate]
                      [scenario2_candidate; bare_candidate]) as H
      by apply perm_swap.
  split; [exact H |].
  exact (confidence_ignores_order iso_date_parse scenario2_target _ _ H).
Defined.

Lemma same_day_witness :
  findCorrespondingPublication iso_date_parse scenario3_target [dated_candidate] =
  {| best := Some dated_candidate; confidence := Num 1 |}.
Proof.
  apply (same_day_alone_gives_one iso_date_parse scenario3_target dated_candidate
           1548892800000);
    reflexivity.
Defined.

Lemma scenario1_compare (threshold : number) :
  Main.compareAll iso_date_parse threshold [scenario1_candidate] [scenario1_target] =
  Normal [ {| Main.target := scenario1_target;
              Main.candidate := scenario1_candidate;
              Main.confidence := Num 1;
              Main.accepted := num_ge (Num 1) threshold |} ].
Proof.
  unfold Main.compareAll, Main.compareLoop, Main.compareOne.
  now rewrite scenario1_run.
Qed.

Lemma run_records_witness :
  Main.compareAll iso_date_parse (Num (1 / 2)) [scenario1_candidate] [scenario1_target] =
  Normal [ {| Main.target := scenario1_target;
              Main.candidate := scenario1_candidate;
              Main.confidence := Num 1;
              Main.accepted := num_ge (Num 1) (Num (1 / 2)) |} ] /\
  map Main.target
    [ {| Main.target := scenario1_target;
         Main.candidate := scenario1_candidate;
         Main.confidence := Num 1;
         Main.accepted := num_ge (Num 1) (Num (1 / 2)) |} ] = [scenario1_target].
Proof.
  split; [apply scenario1_compare |].
  exact (proj1 (run_records_every_publication iso_date_parse _ _ _ _
                  (scenario1_compare (Num (1 / 2))))).
Defined.

Lemma run_fails_witness :
  Main.compareAll iso_date_parse (Num (1 / 2)) [] [scenario1_target] = Throw TypeError.
Proof.
  apply (run_fails_on_null_best iso_date_parse (Num (1 / 2)) [] [scenario1_target]);
    [reflexivity | discriminate].
Defined.

Lemma exact_match_witness :
  (1 / 2 <= 1)%R /\
  (exists c, In c [scenario1_candidate] /\ exactMatch scenario1_target c = true) /\
  ~ In scenario1_target
      (Main.missingPublications
         [ {| Main.target := scenario1_target;
              Main.candidate := scenario1_candidate;
              Main.confidence := Num 1;
              Main.accepted := num_ge (Num 1) (Num (1 / 2)) |} ]).
Proof.
  assert (1 / 2 <= 1)%R as Hx by lra.
  assert (exists c, In c [scenario1_candidate] /\ exactMatch scenario1_target c = true)
    as Hgate by (exists scenario1_candidate; split; [now left | reflexivity]).
  split; [exact Hx |]. split; [exact Hgate |].
  exact (exact_match_is_never_missing iso_date_parse (1 / 2) _ _ _ scenario1_target
           Hx (scenario1_compare (Num (1 / 2))) Hgate).
Defined.

Lemma threshold_witness :
  Main.missingPublications
    [ {| Main.target := scenario1_target;
         Main.candidate := scenario1_candidate;
         Main.confidence := Num 1;
         Main.accepted := num_ge (Num 1) NaN |} ] = [scenario1_target].
Proof.
  apply (proj1 (threshold_extremes iso_date_parse NaN _ _ _ (scenario1_compare NaN))).
  now left.
Defined.

Lemma frontmatter_between_witness :
  ("---" = "+++" \/ "---" = "---") /\
  split_lines (trim yaml_index_md) =
    "---" :: "title: Fast Graphs" :: ["hal: hal-000111"] ++ "---" :: ["Some text."] /\
  ~ In "---" ["hal: hal-000111"] /\
  frontmatterOf yaml_index_md =
  Normal (Yaml (join_with (String LF EmptyString)
                  ["title: Fast Graphs"; "hal: hal-000111"])).
Proof.
  assert ("---" = "+++" \/ "---" = "---") as Hd by now right.
  assert (split_lines (trim yaml_index_md) =
          "---" :: "title: Fast Graphs" :: ["hal: hal-000111"] ++ "---" :: ["Some text."])
    as Hlines by reflexivity.
  assert (~ In "---" ["hal: hal-000111"]) as Hmid
      by (intros [H | []]; discriminate).
  split; [exact Hd |]. split; [exact Hlines |]. split; [exact Hmid |].
  exact (frontmatter_between_delimiters yaml_index_md "---" "title: Fast Graphs"
           ["hal: hal-000111"] ["Some text."] Hd Hlines Hmid).
Defined.

Lemma frontmatter_unclosed_witness :
  ("+++" = "+++" \/ "+++" = "---") /\
  split_lines (trim unclosed_index_md) =
    "+++" :: ["title = 'Fast Graphs'"; "hal = 'hal-000111'"] /\
  ~ In "+++" (tl ["title = 'Fast Graphs'"; "hal = 'hal-000111'"]) /\
  frontmatterOf unclosed_index_md = Normal (Toml "title = 'Fast Graphs'").
Proof.
  assert ("+++" = "+++" \/ "+++" = "---") as Hd by now left.
  assert (split_lines (trim unclosed_index_md) =
          "+++" :: ["title = 'Fast Graphs'"; "hal = 'hal-000111'"])
    as Hlines by reflexivity.
  assert (~ In "+++" (tl ["title = 'Fast Graphs'"; "hal = 'hal-000111'"])) as Hno
      by (intros [H | []]; discriminate).
  split; [exact Hd |]. split; [exact Hlines |]. split; [exact Hno |].
  exact (frontmatter_without_closing unclosed_index_md "+++" _ Hd Hlines Hno).
Defined.

Lemma surrounding_whitespace_witness :
  all_whitespace (String LF " ") = true /\ all_whitespace (String LF EmptyString) = true /\
  frontmatterOf (String LF " " ++ unclosed_index_md ++ String LF EmptyString) =
  frontmatterOf unclosed_index_md.
Proof.
  split; [reflexivity |]. split; [reflexivity |].
  exact (surrounding_whitespace_is_ignored unclosed_index_md (String LF " ")
           (String LF EmptyString) eq_refl eq_refl).
Defined.

Lemma windows_line_ends_witness :
  ("---" = "+++" \/ "---" = "---") /\ trim "title: Fast Graphs" <> "" /\
  frontmatterOf ("---" ++ String CR (String LF "title: Fast Graphs")) =
  Throw (Error ("Unrecognized delimiter: " ++ "---" ++ String CR EmptyString)).
Proof.
  assert ("---" = "+++" \/ "---" = "---") as Hd by now right.
  assert (trim "title: Fast Graphs" <> "") as Hrest by discriminate.
  split; [exact Hd |]. split; [exact Hrest |].
  exact (windows_line_ends_are_rejected "---" "title: Fast Graphs" Hd Hrest).
Defined.

Lemma created_file_witness :
  exists text,
    createIndexMdFile sample_doc = Normal text /\
    exists fm, frontmatterOf text = Normal (Toml fm).
Proof.
  destruct (createIndexMdFile sample_doc) as [text | e] eqn:E;
    [| vm_compute in E; discriminate].
  exists text. split; [reflexivity |].
  destruct (created_file_reads_back sample_doc text E) as (mid & _ & Hfm & _).
  exact Hfm.
Defined.

Lemma created_files_witness :
  exists files body fs',
    createPullRequests "content/publication" [sample_doc] [] =
      (Normal (files, body), fs') /\
    written fs' = files /\ 1 <= List.length files <= 2.
Proof.
  destruct (createPullRequests "content/publication" [sample_doc] [])
    as [[[files body] | e] fs'] eqn:E; [| vm_compute in E; discriminate].
  exists files, body, fs'. split; [reflexivity |].
  destruct (created_files_are_the_files_written _ _ _ _ _ _ E)
    as (calls & -> & Hw & Hcount & _).
  split; [exact Hw | exact Hcount].
Defined.

Lemma failure_witness :
  exists r fs1,
    createPullRequests "content/publication" [sample_doc] [] = (Normal r, fs1) /\
    createIndexMdFile no_abstract_doc = Throw TypeError /\
    createPullRequests "content/publication" ([sample_doc] ++ no_abstract_doc :: []) [] =
    (Throw TypeError,
     fs1 ++ [mkdirSync ("content/publication" ++ "/" ++
                        template (get "halId_s" no_abstract_doc))]).
Proof.
  destruct (createPullRequests "content/publication" [sample_doc] [])
    as [[r | e] fs1] eqn:E; [| vm_compute in E; discriminate].
  exists r, fs1. split; [reflexivity |]. split; [reflexivity |].
  exact (failure_keeps_earlier_files "content/publication" [sample_doc] []
           no_abstract_doc [] fs1 r TypeError E eq_refl).
Defined.

Lemma sample_doc_keys : incl (keys sample_doc) fields.
Proof.
  intros k Hk. unfold keys, sample_doc, fields in *. simpl in *.
  repeat (destruct Hk as [<- | Hk]; [tauto |]). destruct Hk.
Qed.

Lemma requested_fields_witness :
  incl (keys sample_doc) fields /\
  (exists target, asTarget sample_doc = Some target /\ authors_t target = None).
Proof.
  split; [exact sample_doc_keys |].
  destruct (asTarget sample_doc) as [target |] eqn:E;
    [| vm_compute in E; discriminate].
  exists target. split; [reflexivity |].
  exact (proj1 (requested_fields_leave_authors_out sample_doc target
                  sample_doc_keys E)).
Defined.
